(** * bp-nmt: the mail notifier, the Transformer decoder and the NMT model

    A shallow embedding of [mail.py], [onmt/decoders/transformer.py] and
    [onmt/models/model.py].  Python exceptions are values of an error type,
    Python dictionaries are finite maps (or association lists where the
    iteration order is observable), and the operations of the tensor library
    and of the SMTP client are parameters of the development. *)

From Stdlib Require Import ZArith List Lia Bool.
From stdpp Require Import base option list gmap strings pretty.
Import ListNotations.

Local Open Scope string_scope.
Local Open Scope list_scope.

(** ** Outcomes of Python calls *)

(** A call either returns a value or raises an exception of type [E]. *)
Inductive result (E A : Type) : Type :=
| Ok (a : A)
| Raise (e : E).
Arguments Ok {E A} a.
Arguments Raise {E A} e.

Global Instance result_ret {E} : MRet (result E) := fun _ a => Ok a.

Global Instance result_bind {E} : MBind (result E) := fun _ _ k r =>
  match r with
  | Ok a => k a
  | Raise e => Raise e
  end.

Global Instance result_fmap {E} : FMap (result E) := fun _ _ f r =>
  match r with
  | Ok a => Ok (f a)
  | Raise e => Raise e
  end.

(** ** mail.py *)

Module Mail.

(** An exception instance: its class and the method resolution order of
    that class (the class itself first).  [except C] catches [e] exactly
    when [C] occurs in the MRO of [e]. *)
Record exn := { exn_class : string; exn_mro : list string }.

Definition isinstance (e : exn) (cls : string) : bool :=
  bool_decide (cls ∈ exn_mro e).

Definition IndexError : exn :=
  {| exn_class := "IndexError";
     exn_mro := ["IndexError"; "LookupError"; "Exception"; "BaseException"; "object"] |}.

Definition SMTPException : exn :=
  {| exn_class := "SMTPException";
     exn_mro := ["SMTPException"; "OSError"; "Exception"; "BaseException"; "object"] |}.

Definition SMTPAuthenticationError : exn :=
  {| exn_class := "SMTPAuthenticationError";
     exn_mro := ["SMTPAuthenticationError"; "SMTPResponseException"; "SMTPException";
                 "OSError"; "Exception"; "BaseException"; "object"] |}.

Definition ConnectionRefusedError : exn :=
  {| exn_class := "ConnectionRefusedError";
     exn_mro := ["ConnectionRefusedError"; "ConnectionError"; "OSError"; "Exception";
                 "BaseException"; "object"] |}.

Definition UnicodeEncodeError : exn :=
  {| exn_class := "UnicodeEncodeError";
     exn_mro := ["UnicodeEncodeError"; "UnicodeError"; "ValueError"; "Exception";
                 "BaseException"; "object"] |}.

(** A command-line argument is the byte string the operating system
    passes.  Python decodes it as UTF-8 with the [surrogateescape] handler,
    so that the strict [s.encode('utf-8')] succeeds exactly when the bytes
    are well-formed UTF-8; any other byte has become a lone surrogate,
    which cannot be encoded. *)
Definition between (lo hi b : N) : bool := ((lo <=? b) && (b <=? hi))%N.

(** A continuation byte, [80..BF]. *)
Definition continuation (b : N) : bool := between 128 191 b.

(** Well-formed UTF-8 byte sequences (the Unicode standard, table 3-7):
    no overlong forms, no surrogates, nothing above U+10FFFF. *)
Fixpoint well_formed_utf8 (bs : list N) : bool :=
  match bs with
  | [] => true
  | b0 :: rest =>
      if (b0 <=? 127)%N then well_formed_utf8 rest
      else if between 194 223 b0 then
        match rest with
        | b1 :: rest => continuation b1 && well_formed_utf8 rest
        | _ => false
        end
      else if between 224 239 b0 then
        match rest with
        | b1 :: b2 :: rest =>
            (if (b0 =? 224)%N then between 160 191 b1
             else if (b0 =? 237)%N then between 128 159 b1
             else continuation b1)
            && continuation b2 && well_formed_utf8 rest
        | _ => false
        end
      else if between 240 244 b0 then
        match rest with
        | b1 :: b2 :: b3 :: rest =>
            (if (b0 =? 240)%N then between 144 191 b1
             else if (b0 =? 244)%N then between 128 143 b1
             else continuation b1)
            && continuation b2 && continuation b3 && well_formed_utf8 rest
        | _ => false
        end
      else false
  end.

(** [s.encode('utf-8')] does not raise. *)
Definition utf8_encodable (s : string) : bool :=
  well_formed_utf8 (Ascii.N_of_ascii <$> String.list_ascii_of_string s).

(** [email.header.Header(text, charset)] *)
Record Header := { h_text : string; h_charset : string }.

(** [email.mime.text.MIMEText(_text, _subtype, _charset)] with the headers
    added by [message[name] = value], in the order they were added. *)
Record MIMEText := {
  payload : string;
  subtype : string;
  charset : string;
  headers : list (string * Header)
}.

Definition set_header (m : MIMEText) (name : string) (h : Header) : MIMEText :=
  {| payload := payload m; subtype := subtype m; charset := charset m;
     headers := headers m ++ [(name, h)] |}.

Definition get_header (m : MIMEText) (name : string) : option Header :=
  snd <$> List.find (fun nh => String.eqb (fst nh) name) (headers m).

(** The calls made on the SMTP client, in order. *)
Inductive smtp_call :=
| SMTP_new
| SMTP_connect (host : string) (port : Z)
| SMTP_login (user password : string)
| SMTP_sendmail (from_addr : string) (to_addrs : list string) (msg : string).

(** What the script has done so far: the lines printed and the SMTP calls
    made, both in order. *)
Record log := { stdout : list string; calls : list smtp_call }.

Definition log0 : log := {| stdout := []; calls := [] |}.

(** A statement transforms the log and either completes with a value or
    raises. *)
Definition script (A : Type) : Type := log -> log * result exn A.

Global Instance script_ret : MRet script := fun _ a l => (l, Ok a).

Global Instance script_bind : MBind script := fun _ _ k m l =>
  match m l with
  | (l', Ok a) => k a l'
  | (l', Raise e) => (l', Raise e)
  end.

Definition raise {A} (e : exn) : script A := fun l => (l, Raise e).

(** [print(line)]; standard output takes every line (UTF-8 with the
    [surrogateescape] handler, as under the POSIX locale). *)
Definition print (line : string) : script unit := fun l =>
  ({| stdout := stdout l ++ [line]; calls := calls l |}, Ok ()).

(** [MIMEText(text, subtype, 'utf-8')]: the constructor encodes the text
    with the charset, strictly, and raises when that fails. *)
Definition new_MIMEText (text subtype : string) : script MIMEText :=
  if utf8_encodable text
  then mret {| payload := text; subtype := subtype; charset := "utf-8"; headers := [] |}
  else raise UnicodeEncodeError.

(** [try: body / except cls: handler] *)
Definition try_except (body : script unit) (cls : string) (handler : script unit)
  : script unit := fun l =>
  match body l with
  | (l', Ok u) => (l', Ok u)
  | (l', Raise e) => if isinstance e cls then handler l' else (l', Raise e)
  end.

(** The surroundings of the script: the mail server and network, which
    decide for each call of the client whether it succeeds ([None]) or
    raises; [message.as_string()], the serialisation of the [email] package;
    and the password literal of line 16, whose value plays no role here. *)
Class Environment := {
  smtp : smtp_call -> option exn;
  as_string : MIMEText -> string;
  mail_pass : string
}.

Section Script.
Context `{Environment}.

Definition mail_host := "smtp.qq.com".
Definition mail_user := "1347481725@qq.com".
Definition sender := "1347481725@qq.com".
Definition receivers := ["liuyu@hit-mtlab.net"].
Definition subject := "Best_BLEU".

Definition sent_ok := "邮件发送成功".
Definition sent_error := "Error: 无法发送邮件".

(** [Header(text, 'utf-8')] *)
Definition utf8_header (text : string) : Header :=
  {| h_text := text; h_charset := "utf-8" |}.

(** Lines 24-29: the message built from the argument. *)
Definition build_message (body : string) : script MIMEText :=
  message ← new_MIMEText body "plain";
  let message := set_header message "From" (utf8_header "Best_BLEU") in
  let message := set_header message "To" (utf8_header "BLEU") in
  mret (set_header message "Subject" (utf8_header subject)).

(** A call of the SMTP client: it is recorded, and the server decides
    whether it raises. *)
Definition client (c : smtp_call) : script unit := fun l =>
  ({| stdout := stdout l; calls := calls l ++ [c] |},
   match smtp c with
   | Some e => Raise e
   | None => Ok ()
   end).

(** [sys.argv[1]] *)
Definition argv1 (argv : list string) : script string :=
  match argv !! 1%nat with
  | Some arg => mret arg
  | None => raise IndexError
  end.

Definition main (argv : list string) : script unit :=
  arg ← argv1 argv;
  print arg;;
  arg ← argv1 argv;
  message ← build_message arg;
  try_except
    (client SMTP_new;;
     client (SMTP_connect mail_host 25);;
     client (SMTP_login mail_user mail_pass);;
     client (SMTP_sendmail sender receivers (as_string message));;
     print sent_ok)
    "SMTPException"
    (print sent_error).

End Script.
End Mail.

(** ** onmt/decoders/transformer.py *)

Module Transformer.

Inductive exn :=
| TypeError (msg : string)
| KeyError (key : string)
| IndexError (msg : string)
| AttributeError (msg : string)
| AssertionError.

(** The tensor library.  Tensors and the state of the random number
    generator (which dropout draws from) are opaque; the operations the
    source applies to tensors are taken as they are.  Their own failures on
    ill-shaped arguments are outside this model. *)
Class Torch := {
  tensor : Type;
  rng : Type;
  (** [a + b] *)
  tadd : tensor -> tensor -> tensor;
  (** [x.transpose(0, 1).contiguous()] *)
  transpose01 : tensor -> tensor;
  (** [x.dim()] *)
  dim : tensor -> nat;
  (** [x[:, :, 0].transpose(0, 1)], as rows of word indices *)
  words_of : tensor -> list (list Z);
  (** [x[:-1]] *)
  drop_last : tensor -> tensor
}.

(** Integer ([torch.uint8]) tensors of two and three dimensions, outermost
    dimension first; their entries are 0 to 255. *)
Abbreviation bytes2 := (list (list Z)).
Abbreviation bytes3 := (list (list (list Z))).

(** Mask tensors are such tensors: a position is masked when its entry is
    not zero.  The comparisons [eq] and [gt] yield entries 0 and 1. *)
Abbreviation mask := (list (list (list Z))).

Section Decoder.
Context `{Torch}.

(** The Python values stored in the decoder state.  A dict is kept as the
    list of its items in insertion order, which is the order [items()]
    yields them in; its keys are pairwise distinct. *)
#[warnings="-register-all"]
Inductive pyval :=
| PNone
| PTensor (t : tensor)
| PDict (items : list (string * pyval)).

Definition pydict : Type := list (string * pyval).

Definition of_option (o : option tensor) : pyval :=
  match o with
  | Some t => PTensor t
  | None => PNone
  end.

(** [d.get(k)] *)
Fixpoint dict_get (d : pydict) (k : string) : option pyval :=
  match d with
  | [] => None
  | (k', v) :: rest => if decide (k' = k) then Some v else dict_get rest k
  end.

(** [d[k] = v]: an existing key keeps its place, a new one goes last. *)
Fixpoint dict_set (d : pydict) (k : string) (v : pyval) : pydict :=
  match d with
  | [] => [(k, v)]
  | (k', v') :: rest =>
      if decide (k' = k) then (k', v) :: rest else (k', v') :: dict_set rest k v
  end.

Definition keys (d : pydict) : list string := map fst d.

Definition u8 (x : Z) : Z := x mod 256.

(** [m.size(-1)] *)
Definition size_last (m : mask) : nat :=
  match m with
  | (row :: _) :: _ => length row
  | _ => 0%nat
  end.

(** [torch.ones([n, m], dtype=torch.uint8)] *)
Definition ones (n m : nat) : bytes2 := replicate n (replicate m 1%Z).

(** [x.triu_(d)]: the entries below the [d]-th diagonal become zero. *)
Definition triu_ (d : nat) (x : bytes2) : bytes2 :=
  imap (fun q row => imap (fun k v => if (q + d <=? k)%nat then v else 0%Z) row) x.

(** [x.view(1, n, m)] *)
Definition view1 (x : bytes2) : bytes3 := [x].

(** [pad + future] for [pad] of shape (batch, 1, len) and [future] of shape
    (1, len, len): both are broadcast to (batch, len, len); the sum is
    taken in [torch.uint8]. *)
Definition add_broadcast (pad : mask) (future : bytes3) : bytes3 :=
  (fun pad_b =>
     (fun future_q => zip_with (fun p f => u8 (p + f)) (hd [] pad_b) future_q)
       <$> hd [] future)
    <$> pad.

(** [torch.gt(x, c)] *)
Definition gt (x : bytes3) (c : Z) : mask :=
  (fun x_b : bytes2 =>
     (fun x_q : list Z => (fun v => Z.b2z (c <? v)%Z) <$> x_q) <$> x_b) <$> x.

(** [x.eq(c)] on rows of word indices *)
Definition eq_scalar (x : list (list Z)) (c : Z) : bytes2 :=
  (fun row : list Z => (fun v => Z.b2z (v =? c)%Z) <$> row) <$> x.

(** [x.unsqueeze(1)] *)
Definition unsqueeze1 (x : bytes2) : mask := (fun row => [row]) <$> x.

(** *** TransformerDecoderLayer *)

(** [MultiHeadedAttention.forward(key, value, query, mask, layer_cache,
    type)] lives in [onmt.modules]; it returns the output and the attention
    weights, and updates the layer cache it was given in place, which is
    rendered here by returning the cache after the call. *)
Record MultiHeadedAttention := {
  mha_forward :
    option tensor -> option tensor -> tensor -> option mask -> pyval -> string ->
    rng -> tensor * tensor * pyval * rng
}.

Record TransformerDecoderLayer := {
  self_attn : MultiHeadedAttention;
  context_attn : MultiHeadedAttention;
  feed_forward : tensor -> rng -> tensor * rng;
  layer_norm_1 : tensor -> tensor;
  layer_norm_2 : tensor -> tensor;
  drop : tensor -> rng -> tensor * rng
}.

(** Lines 56-67: the mask handed to the self-attention. *)
Definition dec_mask_of (tgt_pad_mask : mask) (code_type : string) (step : option Z)
  : option mask :=
  match step with
  | None =>
      if decide (code_type = "dec") then
        let tgt_len := size_last tgt_pad_mask in
        let future_mask := ones tgt_len tgt_len in
        let future_mask := view1 (triu_ 1 future_mask) in
        Some (gt (add_broadcast tgt_pad_mask future_mask) 0)
      else Some tgt_pad_mask
  | Some _ => None
  end.

(** [TransformerDecoderLayer.forward]; the result is the output, the layer
    cache after the call and the generator state after the call. *)
Definition layer_forward (L : TransformerDecoderLayer) (inputs : tensor)
    (memory_bank : option tensor) (src_pad_mask : option mask)
    (tgt_pad_mask : mask) (code_type : string) (layer_cache : pyval)
    (step : option Z) (w : rng)
  : tensor * pyval * rng :=
  let dec_mask := dec_mask_of tgt_pad_mask code_type step in
  let input_norm := layer_norm_1 L inputs in
  let '(query, attn, layer_cache, w) :=
    mha_forward (self_attn L) (Some input_norm) (Some input_norm) input_norm
                dec_mask layer_cache "self" w in
  let '(query, w) := drop L query w in
  let query := tadd query inputs in
  let '(mid, layer_cache, w) :=
    if decide (code_type = "dec") then
      let query_norm := layer_norm_2 L query in
      let '(mid, attn, layer_cache, w) :=
        mha_forward (context_attn L) memory_bank memory_bank query_norm
                    src_pad_mask layer_cache "context" w in
      let '(mid, w) := drop L mid w in
      (tadd mid query, layer_cache, w)
    else (query, layer_cache, w) in
  let '(output, w) := feed_forward L mid w in
  (output, layer_cache, w).

(** *** TransformerDecoder *)

(** [onmt.modules.Embeddings]: the padding index and the forward pass. *)
Record Embeddings := {
  word_padding_idx : Z;
  emb_forward : tensor -> option Z -> rng -> tensor * rng
}.

Record TransformerDecoder := {
  embeddings : Embeddings;
  transformer_layers : list TransformerDecoderLayer;
  layer_norm : tensor -> tensor
}.

(** [self.state], a dict with string keys; it is empty after [__init__]. *)
Abbreviation state := (gmap string pyval).

(** [d[k]] on [self.state] *)
Definition state_get (st : state) (k : string) : result exn pyval :=
  match st !! k with
  | Some v => Ok v
  | None => Raise (KeyError k)
  end.

Definition init_state (src : tensor) (st : state) : state :=
  <["cache" := PNone]> (<["src" := PTensor src]> st).

(** ["layer_{}".format(i)] *)
Definition layer_key (i : nat) : string := "layer_" +:+ pretty i.

Definition fresh_layer_cache : pydict :=
  let layer_cache := [("memory_keys", PNone); ("memory_values", PNone)] in
  let layer_cache := dict_set layer_cache "self_keys" PNone in
  dict_set layer_cache "self_values" PNone.

(** The loop of [_init_cache] from layer [i] on. *)
Fixpoint init_layers {A} (layers : list A) (i : nat) (cache : pydict) : pydict :=
  match layers with
  | [] => cache
  | _ :: rest => init_layers rest (S i) (dict_set cache (layer_key i) (PDict fresh_layer_cache))
  end.

(** The body of [_init_cache(self)]. *)
Definition _init_cache (D : TransformerDecoder) (st : state) : state :=
  <["cache" := PDict (init_layers (transformer_layers D) 0 [])]> st.

(** Calling a method [def name(self, p1, ..., pn)] with positional
    arguments: Python binds them to the parameters before the body runs and
    raises [TypeError] when there are too many or too few ([self] is
    counted in the message). *)
Definition call_method {A} (name : string) (params : nat) (args : list pyval)
    (body : A) : result exn A :=
  if decide (length args = params) then Ok body
  else if decide (params < length args)%nat then
    Raise (TypeError (name +:+ "() takes " +:+ pretty (S params)
                      +:+ (if decide (params = 0%nat) then " positional argument but "
                           else " positional arguments but ")
                      +:+ pretty (S (length args)) +:+ " were given"))
  else
    Raise (TypeError (name +:+ "() missing " +:+ pretty (params - length args)%nat
                      +:+ " required positional arguments")).

(** [x[:, :, 0]] needs a tensor. *)
Definition subscript_words (v : pyval) : result exn (list (list Z)) :=
  match v with
  | PTensor t => Ok (words_of t)
  | PNone => Raise (TypeError "'NoneType' object is not subscriptable")
  | PDict _ => Raise (TypeError "unhashable type: 'slice'")
  end.

(** [c[k]] for the value [c] of [self.state["cache"]] *)
Definition subscript_cache (c : pyval) (k : string) : result exn pyval :=
  match c with
  | PDict d =>
      match dict_get d k with
      | Some v => Ok v
      | None => Raise (KeyError k)
      end
  | PNone => Raise (TypeError "'NoneType' object is not subscriptable")
  | PTensor _ => Raise (IndexError "too many indices for tensor")
  end.

(** The attention modules update the layer cache in place; the cache is an
    entry of [self.state["cache"]], so the state sees the update. *)
Definition store_layer_cache (st : state) (k : string) (layer_cache : pyval) : state :=
  match st !! "cache" with
  | Some (PDict d) => <["cache" := PDict (dict_set d k layer_cache)]> st
  | _ => st
  end.

(** Lines 217-227: the loop over the layers, from layer [i] on. *)
Fixpoint run_layers (layers : list TransformerDecoderLayer) (i : nat)
    (output : tensor) (src_memory_bank : option tensor) (src_pad_mask : option mask)
    (tgt_pad_mask : mask) (code_type : string) (step : option Z)
    (st : state) (w : rng)
  : result exn (tensor * state * rng) :=
  match layers with
  | [] => Ok (output, st, w)
  | layer :: rest =>
      match step with
      | Some _ =>
          cache ← state_get st "cache";
          layer_cache ← subscript_cache cache (layer_key i);
          let '(output, layer_cache, w) :=
            layer_forward layer output src_memory_bank src_pad_mask tgt_pad_mask
                          code_type layer_cache step w in
          run_layers rest (S i) output src_memory_bank src_pad_mask tgt_pad_mask
                     code_type step (store_layer_cache st (layer_key i) layer_cache) w
      | None =>
          let '(output, _, w) :=
            layer_forward layer output src_memory_bank src_pad_mask tgt_pad_mask
                          code_type PNone step w in
          run_layers rest (S i) output src_memory_bank src_pad_mask tgt_pad_mask
                     code_type step st w
      end
  end.

(** [TransformerDecoder.forward(tgt, memory_bank, code_type, step)] *)
Definition forward (D : TransformerDecoder) (tgt : tensor)
    (memory_bank : option tensor) (code_type : string) (step : option Z)
    (st : state) (w : rng)
  : result exn (tensor * state * rng) :=
  st ← (if decide (step = Some 0%Z)
        then call_method "_init_cache" 0 [of_option memory_bank] (_init_cache D st)
        else Ok st);
  let pad_idx := word_padding_idx (embeddings D) in
  '(src_memory_bank, src_pad_mask) ←
    (if decide (code_type = "dec") then
       src ← state_get st "src";
       src_words ← subscript_words src;
       match memory_bank with
       | None => Raise (AttributeError "'NoneType' object has no attribute 'transpose'")
       | Some memory_bank =>
           Ok (Some (transpose01 memory_bank),
               Some (unsqueeze1 (eq_scalar src_words pad_idx)))
       end
     else Ok (None, None));
  let tgt_words := words_of tgt in
  let '(emb, w) := emb_forward (embeddings D) tgt step w in
  if decide (dim emb = 3%nat) then
    let output := transpose01 emb in
    let tgt_pad_mask := unsqueeze1 (eq_scalar tgt_words pad_idx) in
    '(output, st, w) ←
      run_layers (transformer_layers D) 0 output src_memory_bank src_pad_mask
                 tgt_pad_mask code_type step st w;
    let output := layer_norm D output in
    let dec_outs := transpose01 output in
    Ok (dec_outs, st, w)
  else Raise AssertionError.

(** [map_state(fn)]; [fn] is any Python callable of a value and a batch
    dimension. *)
Section MapState.
Variable fn : pyval -> Z -> pyval.

(** Lines 180-185, the loop of [_recursive_map]: [todo] is what
    [struct.items()] has still to yield, [struct] the dict as updated so
    far, and [recurse v] the sub-dict [v] after the call
    [_recursive_map(v)], which updates it in place. *)
Fixpoint map_items (recurse : pyval -> pyval) (batch_dim : Z)
    (todo : list (string * pyval)) (struct : pydict) : pydict :=
  match todo with
  | [] => struct
  | (k, v) :: todo =>
      match v with
      | PNone => map_items recurse batch_dim todo struct
      | PDict _ => map_items recurse batch_dim todo (dict_set struct k (recurse v))
      | PTensor _ => map_items recurse batch_dim todo (dict_set struct k (fn v batch_dim))
      end
  end.

(** [_recursive_map(struct, batch_dim)], giving [struct] after the call;
    the recursive call leaves [batch_dim] at its default. *)
Fixpoint _recursive_map (struct : pyval) (batch_dim : Z) {struct struct} : pyval :=
  match struct with
  | PDict d => PDict (map_items (fun v => _recursive_map v 0) batch_dim d d)
  | _ => struct
  end.

Definition map_state (st : state) : result exn state :=
  src ← state_get st "src";
  let st := <["src" := fn src 1]> st in
  cache ← state_get st "cache";
  match cache with
  | PNone => Ok st
  | PDict _ => Ok (<["cache" := _recursive_map cache 0]> st)
  | PTensor _ => Raise (AttributeError "'Tensor' object has no attribute 'items'")
  end.

End MapState.

End Decoder.

Abbreviation state := (gmap string pyval).

End Transformer.

(** ** onmt/models/model.py *)

Module Model.
Import Transformer.

Section NMTModel.
Context `{Torch}.

(** What [NMTModel] asks of its encoder and its decoder: a state of their
    own, [init_state], and a forward pass
    [forward(input, memory_bank, code_type)] whose [memory_bank] is [None]
    when the argument is left out. *)
Record Coder := {
  coder_state : Type;
  coder_init_state : tensor -> coder_state -> coder_state;
  coder_forward :
    tensor -> option tensor -> string -> coder_state -> rng ->
    result exn (tensor * coder_state * rng)
}.

(** A [TransformerDecoder] is such an object. *)
Definition transformer_coder (D : TransformerDecoder) : Coder :=
  {| coder_state := state;
     coder_init_state := init_state;
     coder_forward := fun tgt memory_bank code_type st w =>
                        forward D tgt memory_bank code_type None st w |}.

(** The encoder and the decoder are two objects, each with its own state. *)
Record NMTModel := {
  encoder : Coder;
  decoder : Coder
}.

(** [NMTModel.forward(src, tgt, bptt)]; [enc] and [dec] are the states of
    the encoder and the decoder. *)
Definition forward (M : NMTModel) (src tgt : tensor) (bptt : bool)
    (enc : coder_state (encoder M)) (dec : coder_state (decoder M)) (w : rng)
  : result exn (tensor * tensor * coder_state (encoder M) * coder_state (decoder M) * rng) :=
  let tgt_p := drop_last tgt in
  '(memory_bank_p, enc, w) ← coder_forward (encoder M) src None "enc" enc w;
  let dec := if bptt then dec else coder_init_state (decoder M) src dec in
  '(dec_out_p, dec, w) ← coder_forward (decoder M) tgt_p (Some memory_bank_p) "dec" dec w;
  let src_b := drop_last src in
  '(memory_bank_b, dec, w) ← coder_forward (decoder M) tgt None "enc" dec w;
  let enc := if bptt then enc else coder_init_state (encoder M) tgt enc in
  '(dec_out_b, enc, w) ← coder_forward (encoder M) src_b (Some memory_bank_b) "dec" enc w;
  Ok (dec_out_p, dec_out_b, enc, dec, w).

End NMTModel.
End Model.

(** * Properties *)

(** ** The mail script *)

Module MailProofs.
Import Mail.

Section Script.
Context `{Environment}.

(** The message lines 24-29 build from the argument [s], when they build
    one. *)
Definition message_of (s : string) : MIMEText :=
  {| payload := s; subtype := "plain"; charset := "utf-8";
     headers := [("From", {| h_text := "Best_BLEU"; h_charset := "utf-8" |});
                 ("To", {| h_text := "BLEU"; h_charset := "utf-8" |});
                 ("Subject", {| h_text := "Best_BLEU"; h_charset := "utf-8" |})] |}.

(** The four client calls of lines 31-34 for the argument [s]. *)
Definition client_calls (s : string) : list smtp_call :=
  [SMTP_new;
   SMTP_connect "smtp.qq.com" 25;
   SMTP_login "1347481725@qq.com" mail_pass;
   SMTP_sendmail "1347481725@qq.com" ["liuyu@hit-mtlab.net"]
                 (as_string (message_of s))].

(** The exception of the first call that raises, if any. *)
Fixpoint first_failure (todo : list smtp_call) : option exn :=
  match todo with
  | [] => None
  | c :: rest =>
      match smtp c with
      | Some e => Some e
      | None => first_failure rest
      end
  end.

Ltac run_script :=
  cbv [main argv1 build_message new_MIMEText set_header utf8_header subject
       mbind mret script_bind script_ret try_except client print raise
       log0 stdout calls headers payload subtype charset app
       client_calls message_of first_failure fst snd
       mail_host mail_user sender receivers].

Lemma main_no_argument (argv : list string) :
  argv !! 1%nat = None -> main argv log0 = (log0, Raise IndexError).
Proof. intros Harg. unfold main, argv1. rewrite Harg. reflexivity. Qed.

Lemma build_message_cases (s : string) (l : log) :
  build_message s l
  = (l, if utf8_encodable s then Ok (message_of s) else Raise UnicodeEncodeError).
Proof. run_script. by destruct (utf8_encodable s). Qed.

Lemma main_not_encodable (argv : list string) (s : string) :
  argv !! 1%nat = Some s ->
  utf8_encodable s = false ->
  main argv log0 = ({| stdout := [s]; calls := [] |}, Raise UnicodeEncodeError).
Proof.
  intros Harg Henc. unfold main, argv1. rewrite Harg. run_script. by rewrite Henc.
Qed.

Lemma main_calls_prefix (argv : list string) (s : string) :
  argv !! 1%nat = Some s ->
  calls (main argv log0).1 `prefix_of` client_calls s.
Proof.
  intros Harg. unfold main, argv1. rewrite Harg. run_script.
  destruct (utf8_encodable s); [|apply prefix_nil].
  destruct (smtp SMTP_new) as [e|]; [|destruct (smtp (SMTP_connect _ _)) as [e|];
    [|destruct (smtp (SMTP_login _ _)) as [e|];
      [|destruct (smtp (SMTP_sendmail _ _ _)) as [e|]]]];
    try destruct (isinstance e _); simpl;
    repeat (apply prefix_cons); try apply prefix_nil; reflexivity.
Qed.

(** C7: with an argument [s = sys.argv[1]], a message that lines 24-29
    build has body [s] as UTF-8 plain text and subject [Best_BLEU], and one
    is built exactly when [s] can be encoded as UTF-8; the client calls made
    are an initial part of the fixed sequence "create the client, connect to
    smtp.qq.com:25, log in as 1347481725@qq.com, send from 1347481725@qq.com
    to liuyu@hit-mtlab.net", in which only the message text depends on the
    input; all four calls are made when the message is built and none of
    them raises, and none is made when no message is built. *)
Theorem main_message_and_destination (argv : list string) (s : string) :
  argv !! 1%nat = Some s ->
  let message := message_of s in
  payload message = s /\ subtype message = "plain" /\ charset message = "utf-8" /\
  get_header message "Subject" = Some {| h_text := "Best_BLEU"; h_charset := "utf-8" |} /\
  (forall l l' built, build_message s l = (l', Ok built) ->
                      built = message /\ utf8_encodable s = true) /\
  (utf8_encodable s = true -> forall l, build_message s l = (l, Ok message)) /\
  calls (main argv log0).1 `prefix_of` client_calls s /\
  (utf8_encodable s = true -> first_failure (client_calls s) = None ->
   calls (main argv log0).1 = client_calls s) /\
  (utf8_encodable s = false -> calls (main argv log0).1 = []).
Proof.
  intros Harg message.
  do 4 (split; [reflexivity|]).
  split.
  { intros l l' built Hbuilt. rewrite build_message_cases in Hbuilt.
    destruct (utf8_encodable s); [|done]. by injection Hbuilt as _ <-. }
  split.
  { intros Henc l. by rewrite build_message_cases, Henc. }
  split; [by apply main_calls_prefix|].
  split.
  - intros Henc. unfold main, argv1. rewrite Harg. run_script. rewrite Henc.
    destruct (smtp SMTP_new) as [e|]; [by intros ?|].
    destruct (smtp (SMTP_connect _ _)) as [e|]; [by intros ?|].
    destruct (smtp (SMTP_login _ _)) as [e|]; [by intros ?|].
    destruct (smtp (SMTP_sendmail _ _ _)) as [e|]; [by intros ?|].
    reflexivity.
  - intros Henc. by rewrite (main_not_encodable argv s).
Qed.


End Script.
End MailProofs.

(** ** The Transformer decoder *)

Module TransformerProofs.
Import Transformer.

Section Layer.
Context `{Torch}.

(** [m[b, q, k]] *)
Definition at3 {A} (m : list (list (list A))) (b q k : nat) : option A :=
  match m !! b with
  | Some m_b =>
      match m_b !! q with
      | Some m_bq => m_bq !! k
      | None => None
      end
  | None => None
  end.

Lemma future_mask_lookup (n q k : nat) :
  (q < n)%nat -> (k < n)%nat ->
  at3 (view1 (triu_ 1 (ones n n))) 0 q k = Some (if (q <? k)%nat then 1%Z else 0%Z).
Proof.
  intros Hq Hk. unfold at3, view1, triu_, ones. simpl.
  rewrite list_lookup_imap, lookup_replicate_2 by done. simpl.
  rewrite list_lookup_imap, lookup_replicate_2 by done. simpl.
  f_equal. destruct (Nat.leb_spec (q + 1) k), (Nat.ltb_spec q k); (done || lia).
Qed.

Lemma dec_mask_lookup (tgt_pad_mask : mask) (b q k : nat) (row : list Z) (p : Z) :
  tgt_pad_mask !! b = Some [row] ->
  row !! k = Some p ->
  (q < size_last tgt_pad_mask)%nat ->
  (k < size_last tgt_pad_mask)%nat ->
  at3 (gt (add_broadcast tgt_pad_mask
             (view1 (triu_ 1 (ones (size_last tgt_pad_mask) (size_last tgt_pad_mask)))))
          0) b q k
  = Some (Z.b2z (0 <? u8 (p + (if (q <? k)%nat then 1 else 0)))%Z).
Proof.
  intros Hb Hp Hq Hk.
  pose proof (future_mask_lookup _ q k Hq Hk) as Hf.
  unfold at3 in Hf. simpl in Hf.
  destruct (triu_ 1 _ !! q) as [future_q|] eqn:Hfq; [|done].
  unfold at3, gt, add_broadcast.
  rewrite !list_lookup_fmap, Hb. simpl.
  rewrite !list_lookup_fmap, Hfq. simpl.
  rewrite list_lookup_fmap, lookup_zip_with, Hp. simpl. by rewrite Hf.
Qed.

(** The sum of a [uint8] entry other than 255 and a future-mask entry is
    positive exactly when one of the two is. *)
Lemma masked_unless_wrapped (p : Z) (q k : nat) :
  (0 <= p < 255)%Z ->
  (0 <? u8 (p + (if (q <? k)%nat then 1 else 0)))%Z = negb (p =? 0)%Z || (q <? k)%nat.
Proof.
  intros Hp. unfold u8. destruct (q <? k)%nat.
  - rewrite Z.mod_small by lia. rewrite orb_true_r. apply Z.ltb_lt. lia.
  - rewrite Z.add_0_r, Z.mod_small, orb_false_r by lia.
    destruct (Z.eqb_spec p 0) as [->|Hne]; [done|]. apply Z.ltb_lt. lia.
Qed.

(** C3 (as the code has it): with [step=None] and [code_type='dec'], on a
    [uint8] padding mask of shape (batch, 1, tgt_len), the entry
    [dec_mask[b, q, k]] is 1 or 0.  When [tgt_pad_mask[b, 0, k]] is not 255
    (so for every 0/1 mask, as [eq(pad_idx)] makes them), it is 1 exactly
    when that entry is not zero or [k > q]; when the entry is 255, the
    [uint8] sum with the future mask wraps around for [k > q], and it is 1
    exactly when [k <= q].  This [dec_mask] is the mask the layer hands to
    its self-attention, whose output the rest of the layer works on. *)
Theorem dec_mask_causal (tgt_pad_mask : mask) (b q k : nat) (row : list Z) :
  tgt_pad_mask !! b = Some [row] ->
  length row = size_last tgt_pad_mask ->
  Forall (fun p => 0 <= p < 256)%Z row ->
  (q < size_last tgt_pad_mask)%nat ->
  (k < size_last tgt_pad_mask)%nat ->
  exists (dec_mask : mask) (p v : Z),
    dec_mask_of tgt_pad_mask "dec" None = Some dec_mask /\
    at3 tgt_pad_mask b 0 k = Some p /\
    at3 dec_mask b q k = Some v /\
    (v = 1 \/ v = 0)%Z /\
    (p <> 255%Z -> (v = 1%Z <-> p <> 0%Z \/ (k > q)%nat)) /\
    (p = 255%Z -> (v = 1%Z <-> (k <= q)%nat)) /\
    forall (L : TransformerDecoderLayer) inputs memory_bank src_pad_mask layer_cache w,
    exists self_out attn1 cache1 w1 dropped1 w2 context_out attn2 cache2 w3 dropped2 w4
           output w5,
      let input_norm := layer_norm_1 L inputs in
      let query := tadd dropped1 inputs in
      mha_forward (self_attn L) (Some input_norm) (Some input_norm) input_norm
                  (Some dec_mask) layer_cache "self" w
        = (self_out, attn1, cache1, w1) /\
      drop L self_out w1 = (dropped1, w2) /\
      mha_forward (context_attn L) memory_bank memory_bank (layer_norm_2 L query)
                  src_pad_mask cache1 "context" w2
        = (context_out, attn2, cache2, w3) /\
      drop L context_out w3 = (dropped2, w4) /\
      feed_forward L (tadd dropped2 query) w4 = (output, w5) /\
      layer_forward L inputs memory_bank src_pad_mask tgt_pad_mask "dec" layer_cache
                    None w
        = (output, cache2, w5).
Proof.
  intros Hb Hlen Hrow Hq Hk.
  destruct (lookup_lt_is_Some_2 row k) as [p Hp]; [lia|].
  pose proof (Forall_lookup_1 _ _ _ _ Hrow Hp) as Hrange. simpl in Hrange.
  eexists _, p, _. split; [reflexivity|].
  split; [unfold at3; rewrite Hb; simpl; exact Hp|].
  split; [by eapply dec_mask_lookup|].
  split; [by destruct (0 <? _)%Z; auto|].
  split; [|split].
  - intros Hne. rewrite masked_unless_wrapped by lia.
    destruct (Z.eqb_spec p 0) as [->|Hp0], (Nat.ltb_spec q k); simpl;
      split; intros Hv; try done; try (left; done); try (right; lia);
      destruct Hv; (done || lia).
  - intros ->. unfold u8. destruct (Nat.ltb_spec q k); simpl; split; intros Hv;
      (done || lia).
  - intros L inputs memory_bank src_pad_mask layer_cache w.
    unfold layer_forward. simpl.
    destruct (mha_forward (self_attn L) _ _ _ _ _ _ _)
      as [[[self_out attn1] cache1] w1] eqn:E1.
    destruct (drop L self_out w1) as [dropped1 w2] eqn:E2.
    destruct (mha_forward (context_attn L) _ _ _ _ _ _ _)
      as [[[context_out attn2] cache2] w3] eqn:E3.
    destruct (drop L context_out w3) as [dropped2 w4] eqn:E4.
    destruct (feed_forward L _ w4) as [output w5] eqn:E5.
    exists self_out, attn1, cache1, w1, dropped1, w2, context_out, attn2, cache2, w3,
           dropped2, w4, output, w5.
    simpl. auto 10.
Qed.

(** C5: with [code_type='dec'] the layer returns [feed_forward(mid)], where
    [q = drop(self_attn(layer_norm_1(inputs))) + inputs] and
    [mid = drop(context_attn(memory_bank, memory_bank, layer_norm_2(q))) + q]. *)
Theorem layer_forward_dec (L : TransformerDecoderLayer) (inputs : tensor)
    (memory_bank : option tensor) (src_pad_mask : option mask) (tgt_pad_mask : mask)
    (layer_cache : pyval) (step : option Z) (w : rng) :
  exists self_out attn1 cache1 w1 dropped1 w2 context_out attn2 cache2 w3 dropped2 w4
         output w5,
    let input_norm := layer_norm_1 L inputs in
    let q := tadd dropped1 inputs in
    let mid := tadd dropped2 q in
    mha_forward (self_attn L) (Some input_norm) (Some input_norm) input_norm
                (dec_mask_of tgt_pad_mask "dec" step) layer_cache "self" w
      = (self_out, attn1, cache1, w1) /\
    drop L self_out w1 = (dropped1, w2) /\
    mha_forward (context_attn L) memory_bank memory_bank (layer_norm_2 L q)
                src_pad_mask cache1 "context" w2
      = (context_out, attn2, cache2, w3) /\
    drop L context_out w3 = (dropped2, w4) /\
    feed_forward L mid w4 = (output, w5) /\
    layer_forward L inputs memory_bank src_pad_mask tgt_pad_mask "dec" layer_cache step w
      = (output, cache2, w5).
Proof.
  unfold layer_forward. simpl.
  destruct (mha_forward (self_attn L) _ _ _ _ _ _ _) as [[[self_out attn1] cache1] w1] eqn:E1.
  destruct (drop L self_out w1) as [dropped1 w2] eqn:E2.
  destruct (mha_forward (context_attn L) _ _ _ _ _ _ _)
    as [[[context_out attn2] cache2] w3] eqn:E3.
  destruct (drop L context_out w3) as [dropped2 w4] eqn:E4.
  destruct (feed_forward L _ w4) as [output w5] eqn:E5.
  exists self_out, attn1, cache1, w1, dropped1, w2, context_out, attn2, cache2, w3,
         dropped2, w4, output, w5.
  simpl. auto 10.
Qed.

End Layer.

Section Decoder.
Context `{Torch}.

(** The layer [L] with other cross-attention and second layer norm. *)
Definition with_context (L : TransformerDecoderLayer) (a : MultiHeadedAttention)
    (norm : tensor -> tensor) : TransformerDecoderLayer :=
  {| self_attn := self_attn L; context_attn := a;
     feed_forward := feed_forward L; layer_norm_1 := layer_norm_1 L;
     layer_norm_2 := norm; drop := drop L |}.

(** Two states that differ at most in the entry ["src"]. *)
Definition agree_off_src (st st' : gmap string pyval) : Prop :=
  forall k, k <> "src" -> st !! k = st' !! k.

(** Two outcomes of [forward] that a caller cannot tell apart without
    looking at [state["src"]]. *)
Definition same_outcome (r r' : result exn (tensor * gmap string pyval * rng)) : Prop :=
  match r, r' with
  | Ok (out, st, w), Ok (out', st', w') => out = out' /\ w = w' /\ agree_off_src st st'
  | Raise e, Raise e' => e = e'
  | _, _ => False
  end.

(** The layers applied one after the other: each takes the output of the
    one before it, with some layer cache, and passes the generator on. *)
Inductive through_layers (src_memory_bank : option tensor) (src_pad_mask : option mask)
    (tgt_pad_mask : mask) (code_type : string) (step : option Z)
  : list TransformerDecoderLayer -> tensor -> rng -> tensor -> rng -> Prop :=
| through_nil x w :
    through_layers src_memory_bank src_pad_mask tgt_pad_mask code_type step [] x w x w
| through_cons layer rest x w layer_cache x' layer_cache' w' out w_out :
    layer_forward layer x src_memory_bank src_pad_mask tgt_pad_mask code_type
                  layer_cache step w = (x', layer_cache', w') ->
    through_layers src_memory_bank src_pad_mask tgt_pad_mask code_type step
                   rest x' w' out w_out ->
    through_layers src_memory_bank src_pad_mask tgt_pad_mask code_type step
                   (layer :: rest) x w out w_out.

Lemma run_layers_through layers : forall i x smb spm tpm code step st w out st' w',
  run_layers layers i x smb spm tpm code step st w = Ok (out, st', w') ->
  through_layers smb spm tpm code step layers x w out w'.
Proof.
  induction layers as [|layer rest IH]; intros i x smb spm tpm code step st w out st' w' Hrun;
    simpl in Hrun.
  - injection Hrun as -> _ ->. constructor.
  - destruct step as [n|].
    + destruct (state_get st "cache") as [cache|] eqn:Hc; [|done]. simpl in Hrun.
      destruct (subscript_cache cache _) as [lc|] eqn:Hlc; [|done]. simpl in Hrun.
      destruct (layer_forward layer x smb spm tpm code lc (Some n) w)
        as [[x' lc'] w1] eqn:Hl.
      econstructor; [exact Hl|]. eapply IH, Hrun.
    + destruct (layer_forward layer x smb spm tpm code PNone None w)
        as [[x' lc'] w1] eqn:Hl.
      econstructor; [exact Hl|]. eapply IH, Hrun.
Qed.

Lemma run_layers_no_step layers : forall i x smb spm tpm code st w,
  exists out w', run_layers layers i x smb spm tpm code None st w = Ok (out, st, w').
Proof.
  induction layers as [|layer rest IH]; intros i x smb spm tpm code st w; simpl.
  - eauto.
  - destruct (layer_forward layer x smb spm tpm code PNone None w) as [[x' lc'] w1].
    apply IH.
Qed.

Lemma dict_get_set_eq (d : pydict) (k : string) (v : pyval) :
  dict_get (dict_set d k v) k = Some v.
Proof.
  induction d as [|[k0 v0] d IH]; simpl.
  - by rewrite decide_True.
  - destruct (decide (k0 = k)) as [->|Hne]; simpl.
    + by rewrite decide_True.
    + by rewrite decide_False.
Qed.

Lemma dict_get_set_ne (d : pydict) (k k' : string) (v : pyval) :
  k <> k' -> dict_get (dict_set d k v) k' = dict_get d k'.
Proof.
  intros Hne. induction d as [|[k0 v0] d IH]; simpl.
  - by rewrite decide_False.
  - destruct (decide (k0 = k)) as [->|Hne0]; simpl.
    + by rewrite !decide_False.
    + destruct (decide (k0 = k')); done.
Qed.

Lemma layer_key_inj (i j : nat) : layer_key i = layer_key j -> i = j.
Proof. unfold layer_key. simpl. intros [= Hp]. by apply (inj pretty). Qed.

Lemma init_layers_before {A} (layers : list A) : forall i (cache : pydict) j,
  (j < i)%nat ->
  dict_get (init_layers layers i cache) (layer_key j) = dict_get cache (layer_key j).
Proof.
  induction layers as [|layer rest IH]; intros i cache j Hj; simpl; [done|].
  rewrite IH by lia. apply dict_get_set_ne.
  intros Heq%layer_key_inj. lia.
Qed.

Lemma init_layers_entry {A} (layers : list A) : forall i (cache : pydict) j,
  (i <= j < i + length layers)%nat ->
  dict_get (init_layers layers i cache) (layer_key j) = Some (PDict fresh_layer_cache).
Proof.
  induction layers as [|layer rest IH]; intros i cache j Hj; simpl in *; [lia|].
  destruct (decide (j = i)) as [->|Hne].
  - rewrite init_layers_before by lia. apply dict_get_set_eq.
  - apply IH. lia.
Qed.

(** The body of [_init_cache], had it been reached: every layer gets a
    cache whose four entries are [None]. *)
Lemma _init_cache_entries (D : TransformerDecoder) (st : gmap string pyval) (i : nat) :
  (i < length (transformer_layers D))%nat ->
  exists cache,
    _init_cache D st !! "cache" = Some (PDict cache) /\
    dict_get cache (layer_key i) = Some (PDict fresh_layer_cache) /\
    Forall (fun k => dict_get fresh_layer_cache k = Some PNone)
           ["self_keys"; "self_values"; "memory_keys"; "memory_values"].
Proof.
  intros Hi. eexists. split; [apply lookup_insert_eq|]. split.
  - apply init_layers_entry. lia.
  - repeat constructor.
Qed.

(** What a call with [step=0] comes to. *)
Definition init_cache_error : exn :=
  TypeError "_init_cache() takes 1 positional argument but 2 were given".

(** C1 (the code departs from it): a call with [step=0] passes [memory_bank]
    to [_init_cache], which takes no argument besides [self]; the call raises
    [TypeError] before the cache is initialised and before anything is
    decoded, whatever the arguments and the state. *)
Theorem forward_step0_raises (D : TransformerDecoder) (tgt : tensor)
    (memory_bank : option tensor) (code_type : string) (st : gmap string pyval) (w : rng) :
  forward D tgt memory_bank code_type (Some 0%Z) st w = Raise init_cache_error.
Proof. reflexivity. Qed.

(** Decoding [tokens] one at a time, as a translator does: the first token
    with [step=0], the next with [step=1], and so on, collecting the
    outputs. *)
Fixpoint decode_stepwise (D : TransformerDecoder) (tokens : list tensor) (step : Z)
    (memory_bank : option tensor) (code_type : string) (st : gmap string pyval) (w : rng)
  : result exn (list tensor * gmap string pyval * rng) :=
  match tokens with
  | [] => Ok ([], st, w)
  | token :: rest =>
      '(out, st, w) ← forward D token memory_bank code_type (Some step) st w;
      '(outs, st, w) ← decode_stepwise D rest (step + 1) memory_bank code_type st w;
      Ok (out :: outs, st, w)
  end.

(** C2 (the code departs from it): decoding a non-empty target token by
    token from [step=0] raises [TypeError] at the first token, so it yields
    no output to compare with the full-sequence call. *)
Theorem decode_stepwise_raises (D : TransformerDecoder) (token : tensor)
    (rest : list tensor) (memory_bank : option tensor) (code_type : string)
    (st : gmap string pyval) (w : rng) :
  decode_stepwise D (token :: rest) 0 memory_bank code_type st w = Raise init_cache_error.
Proof. reflexivity. Qed.

Lemma forward_no_step_returns (D : TransformerDecoder) (tgt : tensor)
    (memory_bank : option tensor) (code_type : string) (st : gmap string pyval) (w : rng) :
  dim (emb_forward (embeddings D) tgt None w).1 = 3%nat ->
  (code_type = "dec" ->
   is_Some memory_bank /\ exists src, st !! "src" = Some (PTensor src)) ->
  exists out w', forward D tgt memory_bank code_type None st w = Ok (out, st, w').
Proof.
  intros Hdim Hdec. unfold forward.
  destruct (decide (None = Some 0%Z)) as [?|_]; [done|]. simpl.
  destruct (emb_forward (embeddings D) tgt None w) as [emb w0] eqn:Hemb.
  simpl in Hdim.
  assert (exists smb spm,
    (if decide (code_type = "dec") then
       src ← state_get st "src";
       src_words ← subscript_words src;
       match memory_bank with
       | None => Raise (AttributeError "'NoneType' object has no attribute 'transpose'")
       | Some memory_bank =>
           Ok (Some (transpose01 memory_bank),
               Some (unsqueeze1 (eq_scalar src_words (word_padding_idx (embeddings D)))))
       end
     else Ok (None, None)) = Ok (smb, spm)) as (smb & spm & ->).
  { destruct (decide (code_type = "dec")) as [Hc|_]; [|by eauto].
    destruct (Hdec Hc) as [[mb ->] [src Hsrc]].
    unfold state_get. rewrite Hsrc. simpl. eauto. }
  simpl. destruct (decide (dim emb = 3%nat)) as [_|?]; [|done].
  destruct (run_layers_no_step (transformer_layers D) 0 (transpose01 emb) smb spm
              (unsqueeze1 (eq_scalar (words_of tgt) (word_padding_idx (embeddings D))))
              code_type st w0) as (x & w1 & ->).
  simpl. eauto.
Qed.

(** C6: whenever [forward] returns, what it returns is the single tensor
    obtained by embedding the target, passing the transposed embedding
    through all the layers in order, applying the final layer norm and
    transposing back; and a full-sequence call ([step=None]) does return
    when the embedding has three dimensions and, in ['dec'] mode, the memory
    bank is given and [state["src"]] holds a tensor. *)
Theorem forward_layers_then_norm (D : TransformerDecoder) (tgt : tensor)
    (memory_bank : option tensor) (code_type : string) (step : option Z)
    (st : gmap string pyval) (w : rng) :
  (forall out st' w',
      forward D tgt memory_bank code_type step st w = Ok (out, st', w') ->
      exists src_memory_bank src_pad_mask emb w0 last,
        emb_forward (embeddings D) tgt step w = (emb, w0) /\
        through_layers src_memory_bank src_pad_mask
          (unsqueeze1 (eq_scalar (words_of tgt) (word_padding_idx (embeddings D))))
          code_type step (transformer_layers D) (transpose01 emb) w0 last w' /\
        out = transpose01 (layer_norm D last)) /\
  (step = None ->
   dim (emb_forward (embeddings D) tgt None w).1 = 3%nat ->
   (code_type = "dec" ->
    is_Some memory_bank /\ exists src, st !! "src" = Some (PTensor src)) ->
   exists out w', forward D tgt memory_bank code_type step st w = Ok (out, st, w')).
Proof.
  split.
  - intros out st' w' Hfwd. unfold forward in Hfwd.
    destruct (decide (step = Some 0%Z)) as [->|_]; [done|]. simpl in Hfwd.
    match type of Hfwd with
    | context [mbind _ ?pre] => destruct pre as [[smb spm]|] eqn:Hpre; [|done]
    end.
    simpl in Hfwd.
    destruct (emb_forward (embeddings D) tgt step w) as [emb w0] eqn:Hemb.
    destruct (decide (dim emb = 3%nat)) as [_|_]; [|done].
    match type of Hfwd with
    | context [mbind _ ?run] => destruct run as [[[x st1] w1]|] eqn:Hrun; [|done]
    end.
    simpl in Hfwd. injection Hfwd as <- <- <-.
    exists smb, spm, emb, w0, x. split; [done|]. split; [|done].
    eapply run_layers_through, Hrun.
  - intros -> Hdim Hdec. by apply forward_no_step_returns.
Qed.

Lemma layer_forward_skips_context (L : TransformerDecoderLayer) a norm inputs
    memory_bank memory_bank' src_pad_mask src_pad_mask' tgt_pad_mask code_type
    layer_cache step w :
  code_type <> "dec" ->
  layer_forward (with_context L a norm) inputs memory_bank src_pad_mask tgt_pad_mask
                code_type layer_cache step w
  = layer_forward L inputs memory_bank' src_pad_mask' tgt_pad_mask code_type
                  layer_cache step w.
Proof.
  intros Hc. unfold layer_forward. simpl.
  destruct (decide (code_type = "dec")); [done|]. reflexivity.
Qed.

Lemma store_layer_cache_agree st st' k v :
  agree_off_src st st' ->
  agree_off_src (store_layer_cache st k v) (store_layer_cache st' k v).
Proof.
  intros Hst. unfold store_layer_cache. rewrite <- (Hst "cache") by done.
  destruct (st !! "cache") as [[| |d]|]; try done.
  intros j Hj. destruct (decide (j = "cache")) as [->|Hne].
  - by rewrite !lookup_insert_eq.
  - rewrite !lookup_insert_ne by done. by apply Hst.
Qed.

Lemma run_layers_agree layers : forall i x tpm code step st st' w,
  agree_off_src st st' ->
  same_outcome (run_layers layers i x None None tpm code step st w)
               (run_layers layers i x None None tpm code step st' w).
Proof.
  induction layers as [|layer rest IH]; intros i x tpm code step st st' w Hst; simpl.
  - done.
  - destruct step as [n|].
    + unfold state_get. rewrite <- (Hst "cache") by done.
      destruct (st !! "cache") as [cache|]; simpl; [|done].
      destruct (subscript_cache cache (layer_key i)) as [lc|]; simpl; [|done].
      destruct (layer_forward layer x None None tpm code lc (Some n) w) as [[x' lc'] w1].
      by apply IH, store_layer_cache_agree.
    + destruct (layer_forward layer x None None tpm code PNone None w) as [[x' lc'] w1].
      by apply IH.
Qed.

(** C8: with [code_type] other than ['dec'], the outcome of [forward] does
    not depend on [memory_bank] nor on [state["src"]]; a layer's result does
    not depend on its cross-attention, its second layer norm, the memory
    bank or the source mask; and a full-sequence call with
    [memory_bank=None] on the state left by [__init__] returns (given a
    three-dimensional embedding), leaving the state as it was. *)
Theorem forward_enc_ignores_memory_bank (D : TransformerDecoder) (tgt : tensor)
    (code_type : string) (step : option Z) (w : rng) :
  code_type <> "dec" ->
  (forall memory_bank memory_bank' st st',
      agree_off_src st st' ->
      same_outcome (forward D tgt memory_bank code_type step st w)
                   (forward D tgt memory_bank' code_type step st' w)) /\
  (forall L a norm inputs memory_bank memory_bank' src_pad_mask src_pad_mask'
          tgt_pad_mask layer_cache w0,
      layer_forward (with_context L a norm) inputs memory_bank src_pad_mask tgt_pad_mask
                    code_type layer_cache step w0
      = layer_forward L inputs memory_bank' src_pad_mask' tgt_pad_mask code_type
                      layer_cache step w0) /\
  (dim (emb_forward (embeddings D) tgt None w).1 = 3%nat ->
   exists out w', forward D tgt None code_type None ∅ w = Ok (out, ∅, w')).
Proof.
  intros Hc. split; [|split].
  - intros memory_bank memory_bank' st st' Hst. unfold forward.
    destruct (decide (step = Some 0%Z)) as [->|_]; [done|]. simpl.
    destruct (decide (code_type = "dec")); [done|]. simpl.
    destruct (emb_forward (embeddings D) tgt step w) as [emb w0].
    destruct (decide (dim emb = 3%nat)); [|done].
    pose proof (run_layers_agree (transformer_layers D) 0 (transpose01 emb)
                  (unsqueeze1 (eq_scalar (words_of tgt) (word_padding_idx (embeddings D))))
                  code_type step st st' w0 Hst) as Hrun.
    destruct (run_layers _ _ _ _ _ _ _ _ st w0) as [[[x st1] w1]|err],
             (run_layers _ _ _ _ _ _ _ _ st' w0) as [[[x' st1'] w1']|err']; simpl in *;
      try done.
    destruct Hrun as (-> & -> & ?). done.
  - intros. by apply layer_forward_skips_context.
  - intros Hdim. by apply forward_no_step_returns.
Qed.

End Decoder.

Section MapState.
Context `{Torch}.
Variable fn : pyval -> Z -> pyval.

(** Induction on Python values that reaches into the dicts. *)
Fixpoint pyval_nested_ind (P : pyval -> Prop) (HNone : P PNone)
    (HTensor : forall t, P (PTensor t))
    (HDict : forall d, Forall (fun kv => P kv.2) d -> P (PDict d))
    (v : pyval) {struct v} : P v :=
  match v with
  | PNone => HNone
  | PTensor t => HTensor t
  | PDict d =>
      HDict d ((fix go (d : list (string * pyval)) : Forall (fun kv => P kv.2) d :=
                  match d with
                  | [] => @List.Forall_nil _ (fun kv => P kv.2)
                  | kv :: rest =>
                      @List.Forall_cons _ (fun kv => P kv.2) kv rest
                        (pyval_nested_ind P HNone HTensor HDict kv.2) (go rest)
                  end) d)
  end.

(** The values Python can build: the keys of a dict are pairwise distinct,
    at every level. *)
#[warnings="-register-all"]
Inductive is_value : pyval -> Prop :=
| is_value_None : is_value PNone
| is_value_Tensor t : is_value (PTensor t)
| is_value_Dict d :
    NoDup (keys d) -> Forall (fun kv => is_value kv.2) d -> is_value (PDict d).

(** What the claim says of the cache: [None] stays [None], any other value
    that is not a dict is replaced by [fn] of it at batch dimension 0, and a
    dict keeps its keys, in order, with its values treated likewise. *)
#[warnings="-register-all"]
Inductive mapped_entry : pyval -> pyval -> Prop :=
| mapped_None : mapped_entry PNone PNone
| mapped_Tensor t : mapped_entry (PTensor t) (fn (PTensor t) 0)
| mapped_Dict d d' :
    Forall2 (fun kv kv' => kv.1 = kv'.1 /\ mapped_entry kv.2 kv'.2) d d' ->
    mapped_entry (PDict d) (PDict d').

(** One item after the loop body. *)
Definition item_after (recurse : pyval -> pyval) (batch_dim : Z)
    (kv : string * pyval) : string * pyval :=
  (kv.1, match kv.2 with
         | PNone => PNone
         | PDict _ => recurse kv.2
         | PTensor _ => fn kv.2 batch_dim
         end).

Lemma dict_set_middle (before after : pydict) (k : string) (v v' : pyval) :
  k ∉ keys before ->
  dict_set (before ++ (k, v) :: after) k v' = before ++ (k, v') :: after.
Proof.
  induction before as [|[k0 v0] before IH]; intros Hk; simpl.
  - by rewrite decide_True.
  - unfold keys in Hk. simpl in Hk. apply not_elem_of_cons in Hk as [Hne Hk].
    rewrite decide_False by done. f_equal. by apply IH.
Qed.

Lemma map_items_spec recurse batch_dim (todo : list (string * pyval)) :
  forall before : pydict,
    NoDup (keys (before ++ todo)) ->
    map_items fn recurse batch_dim todo (before ++ todo)
    = before ++ (item_after recurse batch_dim <$> todo).
Proof.
  induction todo as [|[k v] todo IH]; intros before Hnd; simpl.
  - reflexivity.
  - assert (k ∉ keys before) as Hk.
    { unfold keys in *. rewrite map_app in Hnd. simpl in Hnd.
      apply NoDup_app in Hnd as (_ & Hdisj & _).
      intros Hin. apply (Hdisj _ Hin). left. }
    assert (forall x, NoDup (keys ((before ++ [(k, x)]) ++ todo))) as Hnd'.
    { intros x. unfold keys in *. rewrite <- app_assoc. simpl.
      rewrite map_app in *. exact Hnd. }
    destruct v as [|t|d]; unfold item_after at 2; simpl.
    + rewrite (cons_middle (k, PNone) before todo), app_assoc, IH by apply Hnd'.
      by rewrite <- app_assoc.
    + rewrite dict_set_middle by done.
      rewrite (cons_middle _ before todo), app_assoc, IH by apply Hnd'.
      by rewrite <- app_assoc.
    + rewrite dict_set_middle by done.
      rewrite (cons_middle _ before todo), app_assoc, IH by apply Hnd'.
      by rewrite <- app_assoc.
Qed.

Lemma _recursive_map_dict (d : pydict) (batch_dim : Z) :
  NoDup (keys d) ->
  _recursive_map fn (PDict d) batch_dim
  = PDict (item_after (fun v => _recursive_map fn v 0) batch_dim <$> d).
Proof. intros Hnd. simpl. f_equal. by apply (map_items_spec _ _ d []). Qed.

Lemma _recursive_map_mapped (v : pyval) :
  is_value v ->
  match v with
  | PDict _ => mapped_entry v (_recursive_map fn v 0)
  | _ => True
  end.
Proof.
  induction v as [|t|d IH] using pyval_nested_ind; intros Hv; try done.
  inversion Hv as [| |d0 Hnd Hall]; subst.
  rewrite _recursive_map_dict by done. constructor.
  clear Hnd Hv. induction d as [|[k v] d IHd]; simpl; constructor.
  - split; [done|]. simpl.
    apply Forall_cons in IH as [IHv _]. apply Forall_cons in Hall as [Hv _].
    simpl in *. specialize (IHv Hv). destruct v; (done || constructor).
  - apply Forall_cons in IH as [_ IH]. apply Forall_cons in Hall as [_ Hall].
    by apply IHd.
Qed.

(** C10: [map_state(fn)] replaces [state["src"]] by [fn] of it at batch
    dimension 1 and, when [state["cache"]] is a dict, replaces every value
    in it and in its sub-dicts that is neither [None] nor a dict by [fn] of
    it at batch dimension 0; the dicts keep their keys and [None] entries
    stay [None].  A cache that is [None] is left as it is. *)
Theorem map_state_maps_src_and_cache (st : gmap string pyval) (src cache : pyval) :
  st !! "src" = Some src ->
  st !! "cache" = Some cache ->
  is_value cache ->
  (forall t, cache <> PTensor t) ->
  exists cache',
    map_state fn st = Ok (<["cache" := cache']> (<["src" := fn src 1]> st)) /\
    mapped_entry cache cache' /\
    (cache = PNone -> cache' = PNone) /\
    (forall d, cache = PDict d -> exists d', cache' = PDict d' /\ keys d' = keys d).
Proof.
  intros Hsrc Hcache Hv Hnt. unfold map_state, state_get. rewrite Hsrc. simpl.
  rewrite lookup_insert_ne, Hcache by done. simpl.
  destruct cache as [|t|d].
  - exists PNone. split; [|split; [constructor|split; [done|done]]].
    f_equal. symmetry. apply insert_id. by rewrite lookup_insert_ne.
  - by destruct (Hnt t).
  - pose proof (_recursive_map_mapped (PDict d) Hv) as Hm.
    exists (_recursive_map fn (PDict d) 0). split; [done|]. split; [done|].
    split; [done|]. intros d0 [= <-].
    inversion Hv as [| |d1 Hnd Hall]; subst.
    rewrite _recursive_map_dict by done. eexists; split; [done|].
    unfold keys. rewrite <- list_fmap_compose. reflexivity.
Qed.

End MapState.

End TransformerProofs.

(** ** The NMT model *)

Module ModelProofs.
Import Transformer Model.

Section NMTModel.
Context `{Torch}.

(** C4: with [bptt=False], [forward] runs the encoder in ['enc'] mode on
    [src], initialises the decoder state with [src], runs the decoder in
    ['dec'] mode on [tgt[:-1]] against the encoder's memory bank, runs the
    decoder in ['enc'] mode on [tgt], initialises the encoder state with
    [tgt], runs the encoder in ['dec'] mode on [src[:-1]] against the
    decoder's memory bank, and returns the two decoder outputs. *)
Theorem forward_bptt_false (M : NMTModel) (src tgt : tensor)
    (enc : coder_state (encoder M)) (dec : coder_state (decoder M)) (w : rng)
    memory_bank_p enc1 w1 dec_out_p dec1 w2 memory_bank_b dec2 w3 dec_out_b enc2 w4 :
  coder_forward (encoder M) src None "enc" enc w = Ok (memory_bank_p, enc1, w1) ->
  coder_forward (decoder M) (drop_last tgt) (Some memory_bank_p) "dec"
                (coder_init_state (decoder M) src dec) w1
    = Ok (dec_out_p, dec1, w2) ->
  coder_forward (decoder M) tgt None "enc" dec1 w2 = Ok (memory_bank_b, dec2, w3) ->
  coder_forward (encoder M) (drop_last src) (Some memory_bank_b) "dec"
                (coder_init_state (encoder M) tgt enc1) w3
    = Ok (dec_out_b, enc2, w4) ->
  forward M src tgt false enc dec w = Ok (dec_out_p, dec_out_b, enc2, dec2, w4).
Proof.
  intros H1 H2 H3 H4. unfold forward.
  rewrite H1. simpl. rewrite H2. simpl. rewrite H3. simpl. rewrite H4. reflexivity.
Qed.

End NMTModel.
End ModelProofs.

Module MailExamples.
Import Mail MailProofs.

(** A server that accepts everything; serialisation is irrelevant here. *)
Definition friendly : Environment :=
  {| smtp := fun _ => None; as_string := payload; mail_pass := "secret" |}.

(** A server that rejects the login. *)
Definition rejecting : Environment :=
  {| smtp := fun c => match c with
                      | SMTP_login _ _ => Some SMTPAuthenticationError
                      | _ => None
                      end;
     as_string := payload; mail_pass := "secret" |}.

(** A host that refuses the connection. *)
Definition unreachable : Environment :=
  {| smtp := fun c => match c with
                      | SMTP_connect _ _ => Some ConnectionRefusedError
                      | _ => None
                      end;
     as_string := payload; mail_pass := "secret" |}.

Lemma main_message_and_destination_witness :
  let argv := ["mail.py"; "BLEU 27.3"] in
  argv !! 1%nat = Some "BLEU 27.3" /\
  calls (@main friendly argv log0).1 =
    [SMTP_new; SMTP_connect "smtp.qq.com" 25;
     SMTP_login "1347481725@qq.com" "secret";
     SMTP_sendmail "1347481725@qq.com" ["liuyu@hit-mtlab.net"] "BLEU 27.3"].
Proof.
  split; [reflexivity|].
  apply (@main_message_and_destination friendly ["mail.py"; "BLEU 27.3"] "BLEU 27.3");
    reflexivity.
Defined.

Example login_rejected_is_caught :
  @main rejecting ["mail.py"; "x"] log0 =
    ({| stdout := ["x"; sent_error];
        calls := [SMTP_new; SMTP_connect "smtp.qq.com" 25;
                  SMTP_login "1347481725@qq.com" "secret"] |}, Ok ()).
Proof. reflexivity. Qed.

Example connection_refused_propagates :
  @main unreachable ["mail.py"; "x"] log0 =
    ({| stdout := ["x"]; calls := [SMTP_new; SMTP_connect "smtp.qq.com" 25] |},
     Raise ConnectionRefusedError).
Proof. reflexivity. Qed.

Example no_argument_raises :
  @main friendly ["mail.py"] log0 = (log0, Raise IndexError).
Proof. reflexivity. Qed.

(** An argument that is not UTF-8: the single byte [FF]. *)
Definition not_utf8 : string := String (Ascii.ascii_of_nat 255) EmptyString.

Example not_utf8_raises :
  @main friendly ["mail.py"; not_utf8] log0 =
    ({| stdout := [not_utf8]; calls := [] |}, Raise UnicodeEncodeError).
Proof. reflexivity. Qed.

Example status_lines_are_utf8 :
  utf8_encodable sent_ok = true /\ utf8_encodable sent_error = true.
Proof. split; reflexivity. Qed.

Example overlong_and_surrogate_are_not_utf8 :
  well_formed_utf8 [192; 128]%N = false /\ well_formed_utf8 [237; 160; 128]%N = false /\
  well_formed_utf8 [244; 144; 128; 128]%N = false /\
  well_formed_utf8 [226; 130]%N = false.
Proof. repeat split; reflexivity. Qed.

End MailExamples.

(** ** A small decoder to run the model on *)

Module Examples.
Import Transformer Model TransformerProofs ModelProofs.

(** Tensors are single sequences of integers (batch and feature size 1). *)
Definition toy_torch : Torch :=
  {| tensor := list Z;
     rng := nat;
     tadd := zip_with Z.add;
     transpose01 := fun x => x;
     dim := fun _ => 3%nat;
     words_of := fun x => [x];
     drop_last := @removelast Z |}.

#[local] Existing Instance toy_torch.

Definition toy_tensor (t : list Z) : pyval := @PTensor toy_torch t.

(** An attention that scales the query, draws once from the generator and
    remembers its key in the layer cache. *)
Definition toy_attention (scale : Z) : MultiHeadedAttention :=
  {| mha_forward := fun key value query mask layer_cache type w =>
       ((fun x => scale * x)%Z <$> query, [],
        match layer_cache with
        | PDict d =>
            PDict (dict_set d (if decide (type = "self") then "self_keys"
                               else "memory_keys") (of_option key))
        | _ => layer_cache
        end,
        S w) |}.

Definition toy_layer : TransformerDecoderLayer :=
  {| self_attn := toy_attention 2;
     context_attn := toy_attention 3;
     feed_forward := fun x w => ((fun v => v + 1)%Z <$> x, w);
     layer_norm_1 := fun x => x;
     layer_norm_2 := fun x => x;
     drop := fun x w => (x, S w) |}.

Definition toy_decoder : TransformerDecoder :=
  {| embeddings := {| word_padding_idx := 0; emb_forward := fun x step w => (x, w) |};
     transformer_layers := [toy_layer; toy_layer];
     layer_norm := fun x => (fun v => v * 10)%Z <$> x |}.

Definition toy_model : NMTModel :=
  {| encoder := transformer_coder toy_decoder;
     decoder := transformer_coder toy_decoder |}.

(** A padding mask for one sentence of three words, the last one padding. *)
Definition toy_pad_mask : mask := [[[0; 0; 1]]]%Z.

(** A [uint8] tensor that is not a 0/1 mask. *)
Definition wrapping_pad_mask : mask := [[[0; 255]]]%Z.

(** A state as left by [init_state] and some decoding steps of one layer. *)
Definition toy_state : gmap string pyval :=
  <["cache" := PDict [("layer_0", PDict [("memory_keys", PNone);
                                          ("self_keys", toy_tensor [7; 8]%Z)])]]>
    (<["src" := toy_tensor [5; 6]%Z]> ∅).

(** Selecting along the batch dimension, here: prefixing the dimension. *)
Definition toy_fn (v : pyval) (batch_dim : Z) : pyval :=
  match v with
  | PTensor t => toy_tensor (batch_dim :: t)
  | _ => v
  end.

Example forward_full_sequence :
  Transformer.forward toy_decoder [1; 2; 0]%Z None "enc" None ∅ 0%nat
  = Ok ([130; 220; 40]%Z, ∅, 4%nat).
Proof. reflexivity. Qed.

Example forward_first_step :
  Transformer.forward toy_decoder [1]%Z (Some [1; 1]%Z) "dec" (Some 0%Z)
                      (init_state [5; 6]%Z ∅) 0%nat
  = Raise init_cache_error.
Proof. reflexivity. Qed.

Example forward_dec_without_memory_bank :
  Transformer.forward toy_decoder [1; 2; 0]%Z None "dec" None (init_state [5; 6]%Z ∅) 0%nat
  = Raise (AttributeError "'NoneType' object has no attribute 'transpose'").
Proof. reflexivity. Qed.

Example forward_dec_without_init_state :
  Transformer.forward toy_decoder [1; 2; 0]%Z (Some [1; 1]%Z) "dec" None ∅ 0%nat
  = Raise (KeyError "src").
Proof. reflexivity. Qed.

Example forward_later_step_without_cache :
  Transformer.forward toy_decoder [1]%Z None "enc" (Some 1%Z) ∅ 0%nat
  = Raise (KeyError "cache").
Proof. reflexivity. Qed.

Lemma toy_pad_mask_uint8 : Forall (fun p => 0 <= p < 256)%Z [0; 0; 1]%Z.
Proof. repeat constructor; lia. Qed.

Lemma dec_mask_causal_witness :
  toy_pad_mask !! 0%nat = Some [[0; 0; 1]%Z] /\
  dec_mask_of toy_pad_mask "dec" None = Some [[[0; 1; 1]; [0; 0; 1]; [0; 0; 1]]]%Z /\
  exists dec_mask p v,
    dec_mask_of toy_pad_mask "dec" None = Some dec_mask /\
    at3 toy_pad_mask 0 0 1 = Some p /\
    at3 dec_mask 0 1 1 = Some v /\
    (p <> 255%Z -> (v = 1%Z <-> p <> 0%Z \/ (1 > 1)%nat)).
Proof.
  split; [reflexivity|]. split; [reflexivity|].
  destruct (dec_mask_causal toy_pad_mask 0 1 1 [0; 0; 1]%Z)
    as (dec_mask & p & v & H1 & H2 & H3 & _ & H4 & _);
    [reflexivity | reflexivity | exact toy_pad_mask_uint8 | simpl; lia | simpl; lia |].
  exists dec_mask, p, v. auto.
Defined.

(** On the padding mask [[[0, 255]]] the entry for query 0 and key 1 is
    255, which is not zero, and 1 > 0; yet [dec_mask[0, 0, 1]] is 0: the sum
    255 + 1 is 0 in [uint8]. *)
Lemma dec_mask_causal_counterexample :
  dec_mask_of wrapping_pad_mask "dec" None = Some [[[0; 0]; [0; 1]]]%Z /\
  at3 wrapping_pad_mask 0 0 1 = Some 255%Z /\
  ~ (at3 [[[0; 0]; [0; 1]]]%Z 0 0 1 = Some 1%Z <-> 255%Z <> 0%Z \/ (1 > 0)%nat).
Proof.
  split; [reflexivity|]. split; [reflexivity|].
  intros [_ Hmasked]. discriminate Hmasked. right. lia.
Qed.

Lemma forward_layers_then_norm_witness :
  exists out w',
    Transformer.forward toy_decoder [1; 2; 0]%Z None "enc" None ∅ 0%nat = Ok (out, ∅, w').
Proof.
  apply (forward_layers_then_norm toy_decoder [1; 2; 0]%Z None "enc" None ∅ 0%nat).
  - reflexivity.
  - reflexivity.
  - intros Hdec. discriminate Hdec.
Defined.

Lemma forward_enc_ignores_memory_bank_witness :
  "enc" <> "dec" /\
  exists out w',
    Transformer.forward toy_decoder [1; 2; 0]%Z None "enc" None ∅ 0%nat = Ok (out, ∅, w').
Proof.
  assert ("enc" <> "dec") as Hne by (intros Heq; discriminate Heq).
  split; [exact Hne|].
  apply (forward_enc_ignores_memory_bank toy_decoder [1; 2; 0]%Z "enc" None 0%nat Hne).
  reflexivity.
Defined.

Lemma map_state_maps_src_and_cache_witness :
  toy_state !! "src" = Some (toy_tensor [5; 6]%Z) /\
  exists cache',
    map_state toy_fn toy_state
    = Ok (<["cache" := cache']> (<["src" := toy_tensor [1; 5; 6]%Z]> toy_state)) /\
    mapped_entry toy_fn
      (PDict [("layer_0", PDict [("memory_keys", PNone); ("self_keys", toy_tensor [7; 8]%Z)])])
      cache'.
Proof.
  split; [reflexivity|].
  destruct (map_state_maps_src_and_cache toy_fn toy_state (toy_tensor [5; 6]%Z)
              (PDict [("layer_0", PDict [("memory_keys", PNone);
                                         ("self_keys", toy_tensor [7; 8]%Z)])]))
    as (cache' & Hrun & Hmapped & _).
  - reflexivity.
  - reflexivity.
  - repeat first
      [ apply is_value_None
      | apply is_value_Tensor
      | apply is_value_Dict; [apply (bool_decide_unpack _); vm_compute; exact I|]
      | apply Forall_cons_2; simpl
      | apply Forall_nil_2 ].
  - intros t Heq. discriminate Heq.
  - exists cache'. split; [exact Hrun | exact Hmapped].
Defined.

Example map_state_run :
  map_state toy_fn toy_state
  = Ok (<["cache" := PDict [("layer_0", PDict [("memory_keys", PNone);
                                               ("self_keys", toy_tensor [0; 7; 8]%Z)])]]>
          (<["src" := toy_tensor [1; 5; 6]%Z]> toy_state)).
Proof. reflexivity. Qed.

Lemma forward_bptt_false_witness :
  Model.forward toy_model [1; 2; 3]%Z [4; 5; 6]%Z false ∅ ∅ 0%nat
  = Ok ([5890; 7330]%Z, [1570; 3010]%Z,
        @init_state toy_torch [4; 5; 6]%Z ∅, @init_state toy_torch [1; 2; 3]%Z ∅, 24%nat).
Proof.
  apply (forward_bptt_false toy_model [1; 2; 3]%Z [4; 5; 6]%Z ∅ ∅ 0%nat
           [130; 220; 310]%Z ∅ 4%nat
           [5890; 7330]%Z (@init_state toy_torch [1; 2; 3]%Z ∅) 12%nat
           [400; 490; 580]%Z (@init_state toy_torch [1; 2; 3]%Z ∅) 16%nat
           [1570; 3010]%Z (@init_state toy_torch [4; 5; 6]%Z ∅) 24%nat);
    reflexivity.
Defined.

End Examples.

(** * Further properties of the code *)

(** ** The mail script *)

Module MailExtra.
Import Mail MailProofs.

Section Script.
Context `{Environment}.

Ltac run_main Harg :=
  unfold main, argv1; rewrite Harg;
  cbv [build_message new_MIMEText set_header utf8_header subject
       mbind mret script_bind script_ret try_except client print raise
       log0 stdout calls headers payload subtype charset app
       client_calls message_of first_failure fst snd
       mail_host mail_user sender receivers].

Ltac by_server_answers :=
  destruct (smtp SMTP_new) as [e|];
    [|destruct (smtp (SMTP_connect _ _)) as [e|];
      [|destruct (smtp (SMTP_login _ _)) as [e|];
        [|destruct (smtp (SMTP_sendmail _ _ _)) as [e|]]]];
  try destruct (isinstance e "SMTPException") eqn:Hinst; simpl.

(** The message is handed to the server only after the client was created,
    the connection was made and the login was accepted. *)
Theorem sendmail_only_after_login (argv : list string) from_addr to_addrs msg :
  SMTP_sendmail from_addr to_addrs msg ∈ calls (main argv log0).1 ->
  smtp SMTP_new = None /\
  smtp (SMTP_connect "smtp.qq.com" 25) = None /\
  smtp (SMTP_login "1347481725@qq.com" mail_pass) = None.
Proof.
  destruct (argv !! 1%nat) as [s|] eqn:Harg.
  - run_main Harg.
    destruct (utf8_encodable s); [|by rewrite elem_of_nil].
    by_server_answers;
      rewrite ?elem_of_cons, ?elem_of_nil; intros Hin; try done;
      (repeat destruct Hin as [Hin|Hin]); done.
  - rewrite main_no_argument by done. simpl. by rewrite elem_of_nil.
Qed.


(** The status line tells the truth: the success line is printed only when
    all four client calls were made and accepted, the error line only when
    one of them raised an [SMTPException]. *)
Theorem status_line_is_truthful (argv : list string) (s status : string) :
  argv !! 1%nat = Some s ->
  stdout (main argv log0).1 = [s; status] ->
  (status = sent_ok /\ first_failure (client_calls s) = None /\
   calls (main argv log0).1 = client_calls s) \/
  (status = sent_error /\
   exists e, first_failure (client_calls s) = Some e /\
             isinstance e "SMTPException" = true).
Proof.
  intros Harg. run_main Harg.
  destruct (utf8_encodable s); [|done].
  by_server_answers; intros [= <-]; eauto.
Qed.

End Script.
End MailExtra.

(** ** The decoder layer *)

Module LayerExtra.
Import Transformer TransformerProofs.

Section Layer.
Context `{Torch}.

(** Every batch entry of the mask is one row of [n] flags: the shape
    (batch, 1, n). *)
Definition pad_shaped (n : nat) (tgt_pad_mask : mask) : Prop :=
  Forall (fun pad_b => exists row, pad_b = [row] /\ length row = n) tgt_pad_mask.

(** [n] rows of [n] entries. *)
Definition square {A} (n : nat) (x : list (list A)) : Prop :=
  length x = n /\ Forall (fun row => length row = n) x.

Lemma triu_ones_square (d n : nat) : square n (triu_ d (ones n n)).
Proof.
  unfold square, triu_, ones. split.
  - by rewrite length_imap, length_replicate.
  - apply Forall_lookup_2. intros q row Hrow.
    rewrite list_lookup_imap in Hrow.
    destruct (replicate n (replicate n 1%Z) !! q) as [r|] eqn:Hr; [|done].
    apply lookup_replicate in Hr as [-> _]. simpl in Hrow. injection Hrow as <-.
    by rewrite length_imap, length_replicate.
Qed.

(** In ['enc'] mode the layer returns
    [feed_forward(drop(self_attn(layer_norm_1(inputs))) + inputs)]: the
    cross-attention is left out, and the layer cache is the one the
    self-attention leaves. *)
Theorem layer_forward_enc (L : TransformerDecoderLayer) (inputs : tensor)
    (memory_bank : option tensor) (src_pad_mask : option mask) (tgt_pad_mask : mask)
    (code_type : string) (layer_cache : pyval) (step : option Z) (w : rng) :
  code_type <> "dec" ->
  exists self_out attn cache1 w1 dropped w2 output w3,
    let input_norm := layer_norm_1 L inputs in
    mha_forward (self_attn L) (Some input_norm) (Some input_norm) input_norm
                (dec_mask_of tgt_pad_mask code_type step) layer_cache "self" w
      = (self_out, attn, cache1, w1) /\
    drop L self_out w1 = (dropped, w2) /\
    feed_forward L (tadd dropped inputs) w2 = (output, w3) /\
    layer_forward L inputs memory_bank src_pad_mask tgt_pad_mask code_type
                  layer_cache step w
      = (output, cache1, w3).
Proof.
  intros Hc. unfold layer_forward.
  destruct (mha_forward (self_attn L) _ _ _ _ _ _ _) as [[[self_out attn] cache1] w1] eqn:E1.
  destruct (drop L self_out w1) as [dropped w2] eqn:E2.
  destruct (decide (code_type = "dec")); [done|].
  destruct (feed_forward L _ w2) as [output w3] eqn:E3.
  exists self_out, attn, cache1, w1, dropped, w2, output, w3. simpl. auto.
Qed.

(** In a stepwise call ([step] given) the self-attention gets no mask, so
    the layer's result does not depend on the target padding mask. *)
Theorem layer_forward_step_ignores_pad_mask (L : TransformerDecoderLayer)
    (inputs : tensor) (memory_bank : option tensor) (src_pad_mask : option mask)
    (tgt_pad_mask tgt_pad_mask' : mask) (code_type : string) (layer_cache : pyval)
    (step : Z) (w : rng) :
  dec_mask_of tgt_pad_mask code_type (Some step) = None /\
  layer_forward L inputs memory_bank src_pad_mask tgt_pad_mask code_type
                layer_cache (Some step) w
  = layer_forward L inputs memory_bank src_pad_mask tgt_pad_mask' code_type
                  layer_cache (Some step) w.
Proof. split; reflexivity. Qed.

(** In a full-sequence ['enc'] call the self-attention mask is the padding
    mask itself: every position may attend to every position that is not
    padding, later ones included. *)
Theorem dec_mask_enc (tgt_pad_mask : mask) (code_type : string) :
  code_type <> "dec" ->
  dec_mask_of tgt_pad_mask code_type None = Some tgt_pad_mask.
Proof. intros Hc. unfold dec_mask_of. by rewrite decide_False. Qed.

(** The ['dec'] mask of a padding mask of shape (batch, 1, n) has shape
    (batch, n, n). *)
Theorem dec_mask_shape (tgt_pad_mask : mask) :
  pad_shaped (size_last tgt_pad_mask) tgt_pad_mask ->
  exists dec_mask,
    dec_mask_of tgt_pad_mask "dec" None = Some dec_mask /\
    length dec_mask = length tgt_pad_mask /\
    Forall (square (size_last tgt_pad_mask)) dec_mask.
Proof.
  intros Hshape. eexists. split; [reflexivity|].
  set (n := size_last tgt_pad_mask) in *.
  destruct (triu_ones_square 1 n) as [Hlen Hrows].
  unfold gt, add_broadcast, view1. simpl. split.
  - by rewrite !length_fmap.
  - rewrite <- list_fmap_compose. apply Forall_fmap.
    eapply Forall_impl; [exact Hshape|].
    intros pad_b (row & -> & Hrow). unfold square. simpl.
    rewrite !length_fmap. split; [done|].
    rewrite <- list_fmap_compose. apply Forall_fmap.
    eapply Forall_impl; [exact Hrows|].
    intros future_q Hq. simpl in *.
    rewrite length_fmap, length_zip_with. lia.
Qed.

(** Later positions see at least what earlier positions see: on a
    [uint8] padding mask whose entries are below 255 (so on every 0/1 mask),
    an entry of the ['dec'] mask that is set for query [q'] is set for every
    earlier query [q]. *)
Theorem dec_mask_monotone (tgt_pad_mask : mask) (b q q' k : nat) (row : list Z) :
  tgt_pad_mask !! b = Some [row] ->
  length row = size_last tgt_pad_mask ->
  Forall (fun p => 0 <= p < 255)%Z row ->
  (q <= q')%nat ->
  (q' < size_last tgt_pad_mask)%nat ->
  (k < size_last tgt_pad_mask)%nat ->
  exists dec_mask,
    dec_mask_of tgt_pad_mask "dec" None = Some dec_mask /\
    (at3 dec_mask b q' k = Some 1%Z -> at3 dec_mask b q k = Some 1%Z).
Proof.
  intros Hb Hlen Hrow Hqq Hq' Hk. eexists. split; [reflexivity|].
  destruct (lookup_lt_is_Some_2 row k) as [p Hp]; [lia|].
  pose proof (Forall_lookup_1 _ _ _ _ Hrow Hp) as Hrange. simpl in Hrange.
  rewrite (dec_mask_lookup _ b q' k row p), (dec_mask_lookup _ b q k row p) by (done || lia).
  rewrite !masked_unless_wrapped by done.
  destruct (Z.eqb_spec p 0) as [->|Hne]; simpl; [|done].
  destruct (Nat.ltb_spec q' k), (Nat.ltb_spec q k); simpl; (done || lia).
Qed.

(** Without padding the ['dec'] mask is the strict upper triangle: position
    [q] attends to exactly the positions up to and including itself. *)
Theorem dec_mask_no_padding (tgt_pad_mask : mask) (b q k : nat) (row : list Z) :
  tgt_pad_mask !! b = Some [row] ->
  length row = size_last tgt_pad_mask ->
  Forall (fun p => p = 0%Z) row ->
  (q < size_last tgt_pad_mask)%nat ->
  (k < size_last tgt_pad_mask)%nat ->
  exists dec_mask,
    dec_mask_of tgt_pad_mask "dec" None = Some dec_mask /\
    at3 dec_mask b q k = Some (Z.b2z (q <? k)%nat).
Proof.
  intros Hb Hlen Hrow Hq Hk. eexists. split; [reflexivity|].
  destruct (lookup_lt_is_Some_2 row k) as [p Hp]; [lia|].
  rewrite (dec_mask_lookup _ b q k row p) by done.
  rewrite (Forall_lookup_1 _ _ _ _ Hrow Hp).
  by destruct (q <? k)%nat.
Qed.

End Layer.
End LayerExtra.

(** ** The decoder and its state *)

Module DecoderExtra.
Import Transformer TransformerProofs.

Section Decoder.
Context `{Torch}.

(** The target padding mask [forward] builds (lines 210 and 215). *)
Definition tgt_pad_mask_of (D : TransformerDecoder) (tgt : tensor) : mask :=
  unsqueeze1 (eq_scalar (words_of tgt) (word_padding_idx (embeddings D))).

(** What a call needs besides a step other than 0: a three-dimensional
    embedding and, in ['dec'] mode, a memory bank and a tensor in
    [state["src"]]. *)
Definition callable (D : TransformerDecoder) (tgt : tensor)
    (memory_bank : option tensor) (code_type : string) (step : option Z)
    (st : gmap string pyval) (w : rng) : Prop :=
  dim (emb_forward (embeddings D) tgt step w).1 = 3%nat /\
  (code_type = "dec" ->
   is_Some memory_bank /\ exists src, st !! "src" = Some (PTensor src)).

(** The cache [d] has an entry for each of the [n] layers from [i] on. *)
Definition has_layers (d : pydict) (i n : nat) : Prop :=
  forall j, (i <= j < i + n)%nat -> is_Some (dict_get d (layer_key j)).

Lemma forward_runs_layers (D : TransformerDecoder) (tgt : tensor)
    (memory_bank : option tensor) (code_type : string) (step : option Z)
    (st : gmap string pyval) (w : rng) :
  step <> Some 0%Z ->
  callable D tgt memory_bank code_type step st w ->
  exists src_memory_bank src_pad_mask,
    forward D tgt memory_bank code_type step st w
    = '(output, st, w) ←
        run_layers (transformer_layers D) 0
          (transpose01 (emb_forward (embeddings D) tgt step w).1)
          src_memory_bank src_pad_mask (tgt_pad_mask_of D tgt) code_type step st
          (emb_forward (embeddings D) tgt step w).2;
      Ok (transpose01 (layer_norm D output), st, w).
Proof.
  intros Hstep [Hdim Hdec]. unfold forward.
  destruct (decide (step = Some 0%Z)); [done|]. simpl.
  destruct (emb_forward (embeddings D) tgt step w) as [emb w0]. simpl in *.
  destruct (decide (code_type = "dec")) as [Hc|_].
  - destruct (Hdec Hc) as [[mb ->] [src Hsrc]].
    unfold state_get. rewrite Hsrc. simpl.
    rewrite decide_True by done. eauto.
  - simpl. rewrite decide_True by done. eauto.
Qed.

Lemma forward_returns_callable (D : TransformerDecoder) (tgt : tensor)
    (memory_bank : option tensor) (code_type : string) (step : option Z)
    (st : gmap string pyval) (w : rng) r :
  forward D tgt memory_bank code_type step st w = Ok r ->
  step <> Some 0%Z /\ callable D tgt memory_bank code_type step st w.
Proof.
  unfold forward, callable.
  destruct (decide (step = Some 0%Z)) as [->|Hstep]; [done|]. simpl.
  destruct (emb_forward (embeddings D) tgt step w) as [emb w0]. simpl.
  destruct (decide (code_type = "dec")) as [Hc|Hc].
  - unfold state_get. destruct (st !! "src") as [[|src|d]|]; simpl; try done.
    destruct memory_bank as [mb|]; simpl; [|done].
    destruct (decide (dim emb = 3%nat)); [|done]. intros _. eauto 10.
  - simpl. destruct (decide (dim emb = 3%nat)); [|done]. intros _.
    split; [done|]. split; [done|]. done.
Qed.

Lemma run_layers_no_step_state layers i x smb spm tpm code st w out st' w' :
  run_layers layers i x smb spm tpm code None st w = Ok (out, st', w') -> st' = st.
Proof.
  destruct (run_layers_no_step layers i x smb spm tpm code st w) as (o & w1 & ->).
  by intros [= _ <- _].
Qed.

Lemma keys_dict_set_present (d : pydict) (k : string) (v : pyval) :
  is_Some (dict_get d k) -> keys (dict_set d k v) = keys d.
Proof.
  induction d as [|[k0 v0] d IH]; simpl; intros Hk.
  - by destruct Hk.
  - destruct (decide (k0 = k)) as [->|Hne]; simpl; [done|].
    unfold keys in *. by rewrite IH.
Qed.

(** The loop over the layers in a stepwise call on a cache that has an
    entry for every layer: it returns, changes nothing but the cache,
    leaves the keys of the cache and its other entries as they are, and the
    new entry of each layer is what that layer made of its old entry. *)
Lemma run_layers_cached layers smb spm tpm code (k : Z) :
  forall i x (st : gmap string pyval) d w,
    st !! "cache" = Some (PDict d) ->
    has_layers d i (length layers) ->
    exists out d' w',
      run_layers layers i x smb spm tpm code (Some k) st w
      = Ok (out, <["cache" := PDict d']> st, w') /\
      keys d' = keys d /\
      (forall key, (forall j, (i <= j < i + length layers)%nat -> key <> layer_key j) ->
                   dict_get d' key = dict_get d key) /\
      (forall j layer, layers !! j = Some layer ->
         exists x0 w0 x1 w1 lc lc',
           dict_get d (layer_key (i + j)) = Some lc /\
           dict_get d' (layer_key (i + j)) = Some lc' /\
           layer_forward layer x0 smb spm tpm code lc (Some k) w0 = (x1, lc', w1)).
Proof.
  induction layers as [|layer rest IH]; intros i x st d w Hcache Hhas; simpl.
  - exists x, d, w. split; [by rewrite insert_id|]. split; [done|]. split; [done|].
    intros j layer Hj. by rewrite lookup_nil in Hj.
  - unfold state_get. rewrite Hcache. simpl.
    destruct (Hhas i) as [lc Hlc]; [simpl; lia|]. rewrite Hlc. simpl.
    destruct (layer_forward layer x smb spm tpm code lc (Some k) w) as [[x1 lc'] w1] eqn:Hl.
    unfold store_layer_cache. rewrite Hcache.
    set (d1 := dict_set d (layer_key i) lc').
    destruct (IH (S i) x1 (<["cache" := PDict d1]> st) d1 w1) as
      (out & d' & w' & Hrun & Hkeys & Hframe & Hiso).
    { apply lookup_insert_eq. }
    { intros j Hj. unfold d1. rewrite dict_get_set_ne.
      - apply Hhas. simpl. lia.
      - intros Heq%layer_key_inj. lia. }
    exists out, d', w'. split; [|split; [|split]].
    + rewrite Hrun. by rewrite insert_insert_eq.
    + rewrite Hkeys. unfold d1. apply keys_dict_set_present. eauto.
    + intros key Hkey. rewrite Hframe.
      * unfold d1. apply dict_get_set_ne. intros <-. apply (Hkey i); [simpl; lia|done].
      * intros j Hj. apply Hkey. simpl. lia.
    + intros [|j] layer0 Hj; simpl in Hj.
      * injection Hj as <-. exists x, w, x1, w1, lc, lc'.
        rewrite Nat.add_0_r. split; [done|]. split; [|done].
        rewrite Hframe; [apply dict_get_set_eq|].
        intros j Hj Heq%layer_key_inj. lia.
      * destruct (Hiso j layer0 Hj) as (x0 & w0 & x2 & w2 & lc0 & lc0' & H1 & H2 & H3).
        exists x0, w0, x2, w2, lc0, lc0'.
        replace (i + S j)%nat with (S i + j)%nat by lia.
        split; [|done]. rewrite <- H1. symmetry. unfold d1.
        apply dict_get_set_ne. intros Heq%layer_key_inj. lia.
Qed.

(** The self-attention mask of a full-sequence ['dec'] call, read off the
    target words: position [q] of sentence [b] may not attend to position
    [k] exactly when word [k] is padding or lies after [q]. *)
Theorem forward_mask_from_words (D : TransformerDecoder) (tgt : tensor)
    (b q k : nat) (words : list Z) :
  words_of tgt !! b = Some words ->
  length words = size_last (tgt_pad_mask_of D tgt) ->
  (q < length words)%nat ->
  (k < length words)%nat ->
  exists dec_mask word,
    dec_mask_of (tgt_pad_mask_of D tgt) "dec" None = Some dec_mask /\
    words !! k = Some word /\
    at3 dec_mask b q k
    = Some (Z.b2z ((word =? word_padding_idx (embeddings D))%Z || (q <? k)%nat)).
Proof.
  intros Hb Hlen Hq Hk.
  destruct (lookup_lt_is_Some_2 words k) as [word Hword]; [done|].
  eexists _, word. split; [reflexivity|]. split; [done|].
  rewrite (dec_mask_lookup _ b q k
             ((fun v => Z.b2z (v =? word_padding_idx (embeddings D))%Z) <$> words)
             (Z.b2z (word =? word_padding_idx (embeddings D))%Z)).
  - f_equal. f_equal.
    destruct (word =? word_padding_idx (embeddings D))%Z, (q <? k)%nat; reflexivity.
  - unfold tgt_pad_mask_of, unsqueeze1, eq_scalar.
    by rewrite !list_lookup_fmap, Hb.
  - by rewrite list_lookup_fmap, Hword.
  - lia.
  - lia.
Qed.

(** A full-sequence call returns exactly when the embedding has three
    dimensions and, in ['dec'] mode, a memory bank is given and
    [state["src"]] holds a tensor; and it never changes the state. *)
Theorem forward_no_step_returns_iff (D : TransformerDecoder) (tgt : tensor)
    (memory_bank : option tensor) (code_type : string)
    (st : gmap string pyval) (w : rng) :
  ((exists r, forward D tgt memory_bank code_type None st w = Ok r) <->
   callable D tgt memory_bank code_type None st w) /\
  (forall out st' w',
      forward D tgt memory_bank code_type None st w = Ok (out, st', w') -> st' = st).
Proof.
  split; [split|].
  - intros [r Hr]. by apply forward_returns_callable in Hr as [_ ?].
  - intros [Hdim Hdec].
    destruct (forward_no_step_returns D tgt memory_bank code_type st w Hdim Hdec)
      as (out & w' & ->). eauto.
  - intros out st' w' Hfwd.
    pose proof (forward_returns_callable _ _ _ _ _ _ _ _ Hfwd) as [Hstep Hcall].
    destruct (forward_runs_layers D tgt memory_bank code_type None st w Hstep Hcall)
      as (smb & spm & Heq).
    rewrite Heq in Hfwd.
    destruct (run_layers _ _ _ _ _ _ _ _ _ _) as [[[x st1] w1]|err] eqn:Hrun; [|done].
    simpl in Hfwd. injection Hfwd as _ <- _.
    by eapply run_layers_no_step_state.
Qed.

(** After [init_state] alone no stepwise call returns on a decoder with at
    least one layer: step 0 fails in [_init_cache], and any other step finds
    [None] where the cache should be. *)
Theorem forward_step_after_init_state_raises (D : TransformerDecoder) (tgt src : tensor)
    (memory_bank : option tensor) (code_type : string) (step : Z)
    (st : gmap string pyval) (w : rng) :
  transformer_layers D <> [] ->
  exists e, forward D tgt memory_bank code_type (Some step) (init_state src st) w = Raise e.
Proof.
  intros Hlayers.
  destruct (forward D tgt memory_bank code_type (Some step) (init_state src st) w)
    as [r|e] eqn:Hfwd; [|by eauto].
  pose proof (forward_returns_callable _ _ _ _ _ _ _ _ Hfwd) as [Hstep Hcall].
  destruct (forward_runs_layers _ _ _ _ _ _ _ Hstep Hcall) as (smb & spm & Heq).
  rewrite Heq in Hfwd.
  destruct (transformer_layers D) as [|layer rest]; [done|].
  simpl in Hfwd. unfold state_get, init_state in Hfwd.
  rewrite lookup_insert_eq in Hfwd. done.
Qed.

(** A stepwise call (other than step 0) on a cache with an entry for every
    layer returns; of the state it changes the cache only, and of the cache
    only the entries of the layers: the keys stay as they are, in order. *)
Theorem forward_step_updates_cache_only (D : TransformerDecoder) (tgt : tensor)
    (memory_bank : option tensor) (code_type : string) (step : Z)
    (st : gmap string pyval) (d : pydict) (w : rng) :
  step <> 0%Z ->
  callable D tgt memory_bank code_type (Some step) st w ->
  st !! "cache" = Some (PDict d) ->
  has_layers d 0 (length (transformer_layers D)) ->
  exists out d' w',
    forward D tgt memory_bank code_type (Some step) st w
    = Ok (out, <["cache" := PDict d']> st, w') /\
    keys d' = keys d /\
    (forall key,
        (forall j, (j < length (transformer_layers D))%nat -> key <> layer_key j) ->
        dict_get d' key = dict_get d key).
Proof.
  intros Hstep Hcall Hcache Hhas.
  destruct (forward_runs_layers D tgt memory_bank code_type (Some step) st w)
    as (smb & spm & ->); [congruence|done|].
  destruct (run_layers_cached (transformer_layers D) smb spm (tgt_pad_mask_of D tgt)
              code_type step 0
              (transpose01 (emb_forward (embeddings D) tgt (Some step) w).1) st d
              (emb_forward (embeddings D) tgt (Some step) w).2 Hcache Hhas)
    as (out & d' & w' & -> & Hkeys & Hframe & _).
  simpl. eexists _, d', w'. split; [done|]. split; [done|].
  intros key Hkey. apply Hframe. intros j Hj. apply Hkey. lia.
Qed.

(** The layer caches do not mix: after a stepwise call the entry
    [layer_j] of the cache is what layer [j] made, in this call, of the
    entry [layer_j] it found. *)
Theorem forward_step_layer_caches_separate (D : TransformerDecoder) (tgt : tensor)
    (memory_bank : option tensor) (code_type : string) (step : Z)
    (st : gmap string pyval) (d : pydict) (w : rng) :
  step <> 0%Z ->
  callable D tgt memory_bank code_type (Some step) st w ->
  st !! "cache" = Some (PDict d) ->
  has_layers d 0 (length (transformer_layers D)) ->
  exists out d' w' src_memory_bank src_pad_mask,
    forward D tgt memory_bank code_type (Some step) st w
    = Ok (out, <["cache" := PDict d']> st, w') /\
    forall j layer,
      transformer_layers D !! j = Some layer ->
      exists x0 w0 x1 w1 lc lc',
        dict_get d (layer_key j) = Some lc /\
        dict_get d' (layer_key j) = Some lc' /\
        layer_forward layer x0 src_memory_bank src_pad_mask (tgt_pad_mask_of D tgt)
                      code_type lc (Some step) w0 = (x1, lc', w1).
Proof.
  intros Hstep Hcall Hcache Hhas.
  destruct (forward_runs_layers D tgt memory_bank code_type (Some step) st w)
    as (smb & spm & ->); [congruence|done|].
  destruct (run_layers_cached (transformer_layers D) smb spm (tgt_pad_mask_of D tgt)
              code_type step 0
              (transpose01 (emb_forward (embeddings D) tgt (Some step) w).1) st d
              (emb_forward (embeddings D) tgt (Some step) w).2 Hcache Hhas)
    as (out & d' & w' & -> & _ & _ & Hiso).
  simpl. eexists _, d', w', smb, spm. split; [done|]. exact Hiso.
Qed.

(** The entry [_init_cache] makes for layer [i]. *)
Definition fresh_entry (i : nat) : string * pyval :=
  (layer_key i,
   PDict [("memory_keys", PNone); ("memory_values", PNone);
          ("self_keys", PNone); ("self_values", PNone)]).

Lemma dict_set_absent (d : pydict) (k : string) (v : pyval) :
  k ∉ keys d -> dict_set d k v = d ++ [(k, v)].
Proof.
  induction d as [|[k0 v0] d IH]; simpl; intros Hk; [done|].
  unfold keys in Hk. simpl in Hk. apply not_elem_of_cons in Hk as [Hne Hk].
  rewrite decide_False by done. f_equal. by apply IH.
Qed.

Lemma layer_key_fresh (i : nat) : layer_key i ∉ keys (fresh_entry <$> seq 0 i).
Proof.
  unfold keys. rewrite <- list_fmap_compose.
  intros (j & Heq & Hj)%list_elem_of_fmap. simpl in Heq.
  apply layer_key_inj in Heq as <-. apply elem_of_seq in Hj. lia.
Qed.

Lemma init_layers_exact {A} (layers : list A) : forall i,
  init_layers layers i (fresh_entry <$> seq 0 i)
  = fresh_entry <$> seq 0 (i + length layers).
Proof.
  induction layers as [|layer rest IH]; intros i; simpl.
  - by rewrite Nat.add_0_r.
  - rewrite dict_set_absent by apply layer_key_fresh.
    replace (i + S (length rest))%nat with (S i + length rest)%nat by lia.
    rewrite <- IH. f_equal. by rewrite seq_S, fmap_app.
Qed.

Lemma init_layers_from_empty {A} (layers : list A) :
  init_layers layers 0 [] = fresh_entry <$> seq 0 (length layers).
Proof. apply (init_layers_exact layers 0). Qed.

Lemma fresh_entries_NoDup (n : nat) : NoDup (keys (fresh_entry <$> seq 0 n)).
Proof.
  unfold keys. rewrite <- list_fmap_compose.
  apply NoDup_fmap_2; [|apply NoDup_seq].
  intros i j Heq. simpl in Heq. by apply layer_key_inj.
Qed.

(** The body of [_init_cache] replaces the cache by a dict with exactly the
    entries [layer_0], ..., [layer_(n-1)] in this order, one per layer, each
    a dict of four [None] entries, and leaves the rest of the state alone;
    what the cache held before does not matter. *)
Theorem _init_cache_exact (D : TransformerDecoder) (st : gmap string pyval) :
  _init_cache D st
  = <["cache" := PDict (fresh_entry <$> seq 0 (length (transformer_layers D)))]> st.
Proof. unfold _init_cache. by rewrite init_layers_from_empty. Qed.

(** Once the body of [_init_cache] has run, every stepwise call other than
    step 0 returns, and leaves every entry of the state but the cache as it
    was. *)
Theorem forward_step_after_init_cache (D : TransformerDecoder) (tgt : tensor)
    (memory_bank : option tensor) (code_type : string) (step : Z)
    (st : gmap string pyval) (w : rng) :
  step <> 0%Z ->
  callable D tgt memory_bank code_type (Some step) st w ->
  exists out st' w',
    forward D tgt memory_bank code_type (Some step) (_init_cache D st) w
    = Ok (out, st', w') /\
    forall key, key <> "cache" -> st' !! key = st !! key.
Proof.
  intros Hstep [Hdim Hdec].
  destruct (forward_runs_layers D tgt memory_bank code_type (Some step)
              (_init_cache D st) w) as (smb & spm & ->); [congruence| |].
  { split; [done|]. intros Hc. destruct (Hdec Hc) as [Hmb [src Hsrc]].
    split; [done|]. exists src. unfold _init_cache. by rewrite lookup_insert_ne. }
  destruct (run_layers_cached (transformer_layers D) smb spm (tgt_pad_mask_of D tgt)
              code_type step 0
              (transpose01 (emb_forward (embeddings D) tgt (Some step) w).1)
              (_init_cache D st) (init_layers (transformer_layers D) 0 [])
              (emb_forward (embeddings D) tgt (Some step) w).2)
    as (out & d' & w' & -> & _).
  { apply lookup_insert_eq. }
  { intros j Hj. rewrite init_layers_entry by lia. eauto. }
  simpl. eexists _, _, w'. split; [done|].
  intros key Hkey. unfold _init_cache. by rewrite !lookup_insert_ne.
Qed.

End Decoder.

Section MapState.
Context `{Torch}.

Lemma _recursive_map_fresh (fn : pyval -> Z -> pyval) (n : nat) :
  _recursive_map fn (PDict (fresh_entry <$> seq 0 n)) 0
  = PDict (fresh_entry <$> seq 0 n).
Proof.
  rewrite _recursive_map_dict by apply fresh_entries_NoDup. f_equal.
  rewrite <- list_fmap_compose. apply list_fmap_ext. intros _ i _. reflexivity.
Qed.

(** Mapping over a freshly initialised cache touches [state["src"]] only:
    all the cache holds is [None], and [fn] is not applied to it. *)
Theorem map_state_fresh_cache (D : TransformerDecoder) (fn : pyval -> Z -> pyval)
    (st : gmap string pyval) (src : pyval) :
  st !! "src" = Some src ->
  map_state fn (_init_cache D st) = Ok (<["src" := fn src 1%Z]> (_init_cache D st)).
Proof.
  intros Hsrc. unfold _init_cache. rewrite init_layers_from_empty.
  unfold map_state, state_get.
  rewrite lookup_insert_ne, Hsrc by done. cbv [mbind result_bind].
  rewrite lookup_insert_ne, lookup_insert_eq by done.
  rewrite (_recursive_map_fresh fn). f_equal.
  apply insert_id. by rewrite lookup_insert_ne, lookup_insert_eq.
Qed.

(** Before [init_state], [map_state] raises [KeyError]: for ["src"] if it
    is missing (and then [fn] is not called at all), else for ["cache"]. *)
Theorem map_state_needs_state (fn : pyval -> Z -> pyval) (st : gmap string pyval) :
  (st !! "src" = None -> map_state fn st = Raise (KeyError "src")) /\
  (is_Some (st !! "src") -> st !! "cache" = None ->
   map_state fn st = Raise (KeyError "cache")).
Proof.
  split.
  - intros Hsrc. unfold map_state, state_get. by rewrite Hsrc.
  - intros [src Hsrc] Hcache. unfold map_state, state_get. rewrite Hsrc. simpl.
    by rewrite lookup_insert_ne, Hcache.
Qed.

Lemma _recursive_map_id (fn : pyval -> Z -> pyval) (v : pyval) :
  (forall t d, fn (PTensor t) d = PTensor t) ->
  is_value v -> _recursive_map fn v 0 = v.
Proof.
  intros Hfn. induction v as [|t|d IH] using pyval_nested_ind; intros Hv; try done.
  inversion Hv as [| |d0 Hnd Hall]; subst.
  rewrite _recursive_map_dict by done. f_equal.
  clear Hnd Hv. induction d as [|[k v] d IHd]; [done|]. rewrite fmap_cons.
  apply Forall_cons in IH as [IHv IH]. apply Forall_cons in Hall as [Hv Hall].
  rewrite IHd by done. f_equal. unfold item_after. simpl in *. f_equal.
  destruct v as [|t|d0]; [done|apply Hfn|by apply IHv].
Qed.

(** A function that returns its argument makes [map_state] leave the whole
    state as it is. *)
Theorem map_state_identity (fn : pyval -> Z -> pyval) (st : gmap string pyval) (src cache : pyval) :
  (forall v d, fn v d = v) ->
  st !! "src" = Some src ->
  st !! "cache" = Some cache ->
  is_value cache ->
  (forall t, cache <> PTensor t) ->
  map_state fn st = Ok st.
Proof.
  intros Hfn Hsrc Hcache Hv Hnt. unfold map_state, state_get.
  rewrite Hsrc. simpl. rewrite lookup_insert_ne, Hcache by done. simpl.
  rewrite Hfn, (insert_id st "src" src) by done.
  destruct cache as [|t|d]; [done|by destruct (Hnt t)|].
  rewrite _recursive_map_id by (done || intros; apply Hfn).
  by rewrite insert_id.
Qed.

Lemma map_state_eval (fn : pyval -> Z -> pyval) (st : gmap string pyval)
    (src cache : pyval) :
  st !! "src" = Some src ->
  st !! "cache" = Some cache ->
  map_state fn st
  = match cache with
    | PNone => Ok (<["src" := fn src 1%Z]> st)
    | PDict _ => Ok (<["cache" := _recursive_map fn cache 0]> (<["src" := fn src 1%Z]> st))
    | PTensor _ => Raise (AttributeError "'Tensor' object has no attribute 'items'")
    end.
Proof.
  intros Hsrc Hcache. unfold map_state, state_get. rewrite Hsrc. cbv [mbind result_bind].
  by rewrite lookup_insert_ne, Hcache.
Qed.

Lemma _recursive_map_compose (f g : pyval -> Z -> pyval) (v : pyval) :
  (forall t d, exists t', f (PTensor t) d = PTensor t') ->
  is_value v ->
  match v with
  | PDict _ =>
      _recursive_map g (_recursive_map f v 0) 0
      = _recursive_map (fun v d => g (f v d) d) v 0
  | _ => True
  end.
Proof.
  intros Hf. induction v as [|t|d IH] using pyval_nested_ind; intros Hv; try done.
  inversion Hv as [| |d0 Hnd Hall]; subst.
  rewrite (_recursive_map_dict f), (_recursive_map_dict (fun v d => g (f v d) d)) by done.
  rewrite _recursive_map_dict.
  2:{ unfold keys. rewrite <- list_fmap_compose. exact Hnd. }
  f_equal. rewrite <- list_fmap_compose. apply Forall_fmap_ext_1.
  clear Hnd Hv. induction d as [|[k v] d IHd]; [done|].
  apply Forall_cons in IH as [IHv IH]. apply Forall_cons in Hall as [Hv Hall].
  constructor; [|by apply IHd].
  unfold item_after, compose. simpl in *. f_equal.
  destruct v as [|t|d0].
  - done.
  - destruct (Hf t 0%Z) as [t' Ht']. by rewrite Ht'.
  - by apply IHv.
Qed.

(** Mapping with [f] and then with [g] is mapping once with their
    composition, provided [f] returns a tensor whenever it is given one. *)
Theorem map_state_compose (f g : pyval -> Z -> pyval) (st : gmap string pyval)
    (src cache : pyval) :
  st !! "src" = Some src ->
  st !! "cache" = Some cache ->
  is_value cache ->
  (forall t, cache <> PTensor t) ->
  (forall t d, exists t', f (PTensor t) d = PTensor t') ->
  map_state f st ≫= map_state g = map_state (fun v d => g (f v d) d) st.
Proof.
  intros Hsrc Hcache Hv Hnt Hf.
  assert (forall (a b x : pyval) (y : pyval),
             <["cache" := x]> (<["src" := b]> (<["cache" := y]> (<["src" := a]> st)))
             = <["cache" := x]> (<["src" := b]> st)) as Hmaps.
  { intros a b x y. apply map_eq. intros i.
    destruct (decide (i = "cache")) as [->|?]; [by rewrite !lookup_insert_eq|].
    rewrite (lookup_insert_ne _ "cache") by done.
    rewrite (lookup_insert_ne _ "cache") by done.
    destruct (decide (i = "src")) as [->|?]; [by rewrite !lookup_insert_eq|].
    by rewrite !lookup_insert_ne. }
  rewrite (map_state_eval f st src cache), (map_state_eval _ st src cache) by done.
  destruct cache as [|t|d]; [|by destruct (Hnt t)|]; cbv [mbind result_bind].
  - rewrite (map_state_eval g _ (f src 1%Z) PNone).
    + by rewrite insert_insert_eq.
    + apply lookup_insert_eq.
    + by rewrite lookup_insert_ne.
  - pose proof (_recursive_map_compose f g (PDict d) Hf Hv) as Hcomp.
    rewrite (map_state_eval g _ (f src 1%Z) (_recursive_map f (PDict d) 0)).
    + rewrite <- Hcomp.
      destruct (_recursive_map f (PDict d) 0) as [|t|d1] eqn:Hrec; [done|done|].
      by rewrite Hmaps.
    + by rewrite lookup_insert_ne, lookup_insert_eq.
    + apply lookup_insert_eq.
Qed.

End MapState.
End DecoderExtra.

(** ** The NMT model *)

Module ModelExtra.
Import Transformer Model TransformerProofs DecoderExtra.

Section NMTModel.
Context `{Torch}.

(** The model whose encoder and decoder are both Transformer decoders. *)
Definition transformer_model (E D : TransformerDecoder) : NMTModel :=
  {| encoder := transformer_coder E; decoder := transformer_coder D |}.

(** The embedding of [D] always has three dimensions. *)
Definition embeds_3d (D : TransformerDecoder) : Prop :=
  forall x step w, dim (emb_forward (embeddings D) x step w).1 = 3%nat.

(** [forward] returns exactly when its four passes return one after the
    other, each on the state and the generator the one before left, and
    then it returns the outputs of the two ['dec'] passes; the states are
    initialised before the ['dec'] passes only when [bptt] is [False]. *)
Theorem forward_returns_iff (M : NMTModel) (src tgt : tensor) (bptt : bool)
    (enc : coder_state (encoder M)) (dec : coder_state (decoder M)) (w : rng)
    dec_out_p dec_out_b enc2 dec2 w4 :
  forward M src tgt bptt enc dec w = Ok (dec_out_p, dec_out_b, enc2, dec2, w4) <->
  exists memory_bank_p enc1 w1 dec1 w2 memory_bank_b w3,
    coder_forward (encoder M) src None "enc" enc w = Ok (memory_bank_p, enc1, w1) /\
    coder_forward (decoder M) (drop_last tgt) (Some memory_bank_p) "dec"
                  (if bptt then dec else coder_init_state (decoder M) src dec) w1
      = Ok (dec_out_p, dec1, w2) /\
    coder_forward (decoder M) tgt None "enc" dec1 w2 = Ok (memory_bank_b, dec2, w3) /\
    coder_forward (encoder M) (drop_last src) (Some memory_bank_b) "dec"
                  (if bptt then enc1 else coder_init_state (encoder M) tgt enc1) w3
      = Ok (dec_out_b, enc2, w4).
Proof.
  unfold forward. split.
  - intros Hfwd.
    destruct (coder_forward (encoder M) src None "enc" enc w)
      as [[[memory_bank_p enc1] w1]|e1] eqn:H1; [|done]. simpl in Hfwd.
    destruct (coder_forward (decoder M) (drop_last tgt) _ "dec" _ w1)
      as [[[p dec1] w2]|e2] eqn:H2; [|done]. simpl in Hfwd.
    destruct (coder_forward (decoder M) tgt None "enc" dec1 w2)
      as [[[memory_bank_b dec2'] w3]|e3] eqn:H3; [|done]. simpl in Hfwd.
    destruct (coder_forward (encoder M) (drop_last src) _ "dec" _ w3)
      as [[[b enc2'] w4']|e4] eqn:H4; [|done]. simpl in Hfwd.
    injection Hfwd as -> -> -> -> ->.
    exists memory_bank_p, enc1, w1, dec1, w2, memory_bank_b, w3. auto.
  - intros (memory_bank_p & enc1 & w1 & dec1 & w2 & memory_bank_b & w3 &
            H1 & H2 & H3 & H4).
    rewrite H1. simpl. rewrite H2. simpl. rewrite H3. simpl. rewrite H4. reflexivity.
Qed.

Lemma init_state_agree (x : tensor) (st st' : gmap string pyval) :
  agree_off_src st st' -> init_state x st = init_state x st'.
Proof.
  intros Hst. unfold init_state. apply map_eq. intros i.
  destruct (decide (i = "cache")) as [->|?]; [by rewrite !lookup_insert_eq|].
  rewrite !(lookup_insert_ne _ "cache") by done.
  destruct (decide (i = "src")) as [->|?]; [by rewrite !lookup_insert_eq|].
  rewrite !lookup_insert_ne by done. by apply Hst.
Qed.

(** A full-sequence ['enc'] pass on two states that differ in ["src"] only:
    both raise the same exception, or both return the same output and
    generator and leave their states as they were. *)
Lemma forward_enc_no_step_agree (D : TransformerDecoder) (x : tensor)
    (st st' : gmap string pyval) (w : rng) :
  agree_off_src st st' ->
  match Transformer.forward D x None "enc" None st w,
        Transformer.forward D x None "enc" None st' w with
  | Ok (out, st1, w1), Ok (out', st1', w1') =>
      out = out' /\ w1 = w1' /\ st1 = st /\ st1' = st'
  | Raise e, Raise e' => e = e'
  | _, _ => False
  end.
Proof.
  intros Hst. unfold Transformer.forward. simpl.
  destruct (emb_forward (embeddings D) x None w) as [emb w0].
  destruct (decide (dim emb = 3%nat)); [|done].
  destruct (run_layers_no_step (transformer_layers D) 0 (transpose01 emb) None None
              (unsqueeze1 (eq_scalar (words_of x) (word_padding_idx (embeddings D))))
              "enc" st w0) as (o & w1 & Hrun).
  destruct (run_layers_no_step (transformer_layers D) 0 (transpose01 emb) None None
              (unsqueeze1 (eq_scalar (words_of x) (word_padding_idx (embeddings D))))
              "enc" st' w0) as (o' & w1' & Hrun').
  pose proof (run_layers_agree (transformer_layers D) 0 (transpose01 emb)
                (unsqueeze1 (eq_scalar (words_of x) (word_padding_idx (embeddings D))))
                "enc" None st st' w0 Hst) as Hag.
  rewrite Hrun, Hrun' in *. simpl in *. destruct Hag as (-> & -> & _). done.
Qed.

Lemma forward_dec_missing_src (D : TransformerDecoder) (x : tensor)
    (memory_bank : option tensor) (st : gmap string pyval) (w : rng) :
  st !! "src" = None ->
  Transformer.forward D x memory_bank "dec" None st w = Raise (KeyError "src").
Proof.
  intros Hsrc. unfold Transformer.forward.
  rewrite decide_False by done. cbv [mbind result_bind].
  rewrite decide_True by done. unfold state_get. by rewrite Hsrc.
Qed.

(** With two Transformer decoders whose embeddings are three-dimensional,
    a training pass with [bptt=False] always returns, whatever the states
    held before; afterwards the encoder's state is initialised with [tgt]
    and the decoder's with [src], and neither has a cache. *)
Theorem forward_on_transformers_returns (E D : TransformerDecoder) (src tgt : tensor)
    (enc dec : gmap string pyval) (w : rng) :
  embeds_3d E -> embeds_3d D ->
  exists dec_out_p dec_out_b w',
    forward (transformer_model E D) src tgt false enc dec w
    = Ok (dec_out_p, dec_out_b, init_state tgt enc, init_state src dec, w').
Proof.
  intros HE HD. unfold forward, transformer_model. simpl.
  destruct (forward_no_step_returns E src None "enc" enc w) as (mb_p & w1 & ->);
    [apply HE|done|]. simpl.
  destruct (forward_no_step_returns D (drop_last tgt) (Some mb_p) "dec"
              (init_state src dec) w1) as (p & w2 & ->); [apply HD| |].
  { intros _. split; [done|]. exists src. unfold init_state.
    by rewrite lookup_insert_ne, lookup_insert_eq. }
  simpl.
  destruct (forward_no_step_returns D tgt None "enc" (init_state src dec) w2)
    as (mb_b & w3 & ->); [apply HD|done|]. simpl.
  destruct (forward_no_step_returns E (drop_last src) (Some mb_b) "dec"
              (init_state tgt enc) w3) as (b & w4 & ->); [apply HE| |].
  { intros _. split; [done|]. exists tgt. unfold init_state.
    by rewrite lookup_insert_ne, lookup_insert_eq. }
  simpl. eauto.
Qed.

(** With [bptt=True] nothing initialises the states: on a decoder that has
    never seen [init_state] the first ['dec'] pass raises
    [KeyError('src')]. *)
Theorem forward_bptt_without_state_raises (E D : TransformerDecoder) (src tgt : tensor)
    (enc dec : gmap string pyval) (w : rng) :
  embeds_3d E ->
  dec !! "src" = None ->
  forward (transformer_model E D) src tgt true enc dec w = Raise (KeyError "src").
Proof.
  intros HE Hsrc. unfold forward, transformer_model. simpl.
  destruct (forward_no_step_returns E src None "enc" enc w) as (mb_p & w1 & ->);
    [apply HE|done|]. simpl.
  by rewrite forward_dec_missing_src.
Qed.

(** With [bptt=False] the pass does not depend on what the two states held
    under ["src"] before: the ['enc'] passes do not read it and
    [init_state] overwrites it before the ['dec'] passes. *)
Theorem forward_ignores_stored_src (E D : TransformerDecoder) (src tgt : tensor)
    (enc enc' dec dec' : gmap string pyval) (w : rng) :
  agree_off_src enc enc' ->
  agree_off_src dec dec' ->
  forward (transformer_model E D) src tgt false enc dec w
  = forward (transformer_model E D) src tgt false enc' dec' w.
Proof.
  intros Henc Hdec. unfold forward, transformer_model. simpl.
  pose proof (forward_enc_no_step_agree E src enc enc' w Henc) as H1.
  destruct (Transformer.forward E src None "enc" None enc w) as [[[mb st1] w1]|e],
           (Transformer.forward E src None "enc" None enc' w) as [[[mb' st1'] w1']|e'];
    try done; simpl.
  - destruct H1 as (<- & <- & -> & ->).
    by rewrite (init_state_agree src dec dec'), (init_state_agree tgt enc enc').
  - by rewrite H1.
Qed.

End NMTModel.
End ModelExtra.

(** ** The further properties on the small decoder *)

Module ExtraExamples.
Import Transformer Model TransformerProofs ModelProofs Examples.
Import LayerExtra DecoderExtra ModelExtra.

#[local] Existing Instance toy_torch.

(** *** The mail script *)

Lemma sendmail_only_after_login_witness :
  Mail.SMTP_sendmail "1347481725@qq.com" ["liuyu@hit-mtlab.net"] "x"
    ∈ Mail.calls (@Mail.main MailExamples.friendly ["mail.py"; "x"] Mail.log0).1 /\
  @Mail.smtp MailExamples.friendly
    (Mail.SMTP_login "1347481725@qq.com" (@Mail.mail_pass MailExamples.friendly)) = None.
Proof.
  assert (Mail.SMTP_sendmail "1347481725@qq.com" ["liuyu@hit-mtlab.net"] "x"
            ∈ Mail.calls (@Mail.main MailExamples.friendly ["mail.py"; "x"] Mail.log0).1)
    as Hin by (vm_compute; repeat constructor).
  split; [exact Hin|].
  apply (@MailExtra.sendmail_only_after_login MailExamples.friendly
           ["mail.py"; "x"] _ _ _ Hin).
Defined.


Lemma status_line_is_truthful_witness :
  Mail.stdout (@Mail.main MailExamples.rejecting ["mail.py"; "x"] Mail.log0).1
    = ["x"; Mail.sent_error] /\
  ((Mail.sent_error = Mail.sent_ok /\
    @MailProofs.first_failure MailExamples.rejecting
      (@MailProofs.client_calls MailExamples.rejecting "x") = None /\
    Mail.calls (@Mail.main MailExamples.rejecting ["mail.py"; "x"] Mail.log0).1
      = @MailProofs.client_calls MailExamples.rejecting "x") \/
   (Mail.sent_error = Mail.sent_error /\
    exists e, @MailProofs.first_failure MailExamples.rejecting
                (@MailProofs.client_calls MailExamples.rejecting "x") = Some e /\
              Mail.isinstance e "SMTPException" = true)).
Proof.
  split; [reflexivity|].
  apply (@MailExtra.status_line_is_truthful MailExamples.rejecting
           ["mail.py"; "x"] "x" Mail.sent_error); reflexivity.
Defined.

(** *** The layer *)

Lemma enc_is_not_dec : "enc" <> "dec".
Proof. intros Heq. discriminate Heq. Qed.

Lemma layer_forward_enc_witness :
  layer_forward toy_layer [1; 2]%Z None None toy_pad_mask "enc" PNone None 0%nat
  = ([4; 7]%Z, PNone, 2%nat).
Proof.
  destruct (layer_forward_enc toy_layer [1; 2]%Z None None toy_pad_mask "enc" PNone None
              0%nat enc_is_not_dec)
    as (self_out & attn & cache1 & w1 & dropped & w2 & output & w3 & H1 & H2 & H3 & H4).
  rewrite H4. simpl in H1, H2, H3.
  injection H1 as <- <- <- <-. injection H2 as <- <-. injection H3 as <- <-.
  reflexivity.
Defined.

Lemma toy_pad_mask_shaped : pad_shaped (size_last toy_pad_mask) toy_pad_mask.
Proof. repeat constructor. by exists [0; 0; 1]%Z. Qed.

Lemma dec_mask_shape_witness :
  exists dec_mask,
    dec_mask_of toy_pad_mask "dec" None = Some dec_mask /\
    length dec_mask = 1%nat /\ Forall (square 3) dec_mask.
Proof. apply (dec_mask_shape toy_pad_mask toy_pad_mask_shaped). Defined.

Lemma toy_pad_mask_below_255 : Forall (fun p => 0 <= p < 255)%Z [0; 0; 1]%Z.
Proof. repeat constructor; lia. Qed.

Lemma dec_mask_monotone_witness :
  exists dec_mask,
    dec_mask_of toy_pad_mask "dec" None = Some dec_mask /\
    (at3 dec_mask 0 1 2 = Some 1%Z -> at3 dec_mask 0 0 2 = Some 1%Z).
Proof.
  apply (dec_mask_monotone toy_pad_mask 0 0 1 2 [0; 0; 1]%Z);
    [reflexivity | reflexivity | exact toy_pad_mask_below_255
     | lia | simpl; lia | simpl; lia].
Defined.

(** With an entry of 255 the mask is not monotone: key 1 is masked for
    query 1 and not for query 0. *)
Example dec_mask_wraps :
  dec_mask_of wrapping_pad_mask "dec" None = Some [[[0; 0]; [0; 1]]]%Z.
Proof. reflexivity. Qed.

Lemma dec_mask_no_padding_witness :
  exists dec_mask,
    dec_mask_of [[[0; 0]]]%Z "dec" None = Some dec_mask /\
    at3 dec_mask 0 0 1 = Some 1%Z.
Proof.
  apply (dec_mask_no_padding [[[0; 0]]]%Z 0 0 1 [0; 0]%Z);
    [reflexivity | reflexivity | repeat constructor | simpl; lia | simpl; lia].
Defined.

(** *** The decoder *)

Lemma forward_mask_from_words_witness :
  exists dec_mask word,
    dec_mask_of (tgt_pad_mask_of toy_decoder [4; 5; 0]%Z) "dec" None = Some dec_mask /\
    [4; 5; 0]%Z !! 2%nat = Some word /\
    at3 dec_mask 0 2 2 = Some (Z.b2z ((word =? 0)%Z || (2 <? 2)%nat)).
Proof.
  apply (forward_mask_from_words toy_decoder [4; 5; 0]%Z 0 2 2 [4; 5; 0]%Z);
    [reflexivity | reflexivity | simpl; lia | simpl; lia].
Defined.

Lemma toy_layers_nonempty : transformer_layers toy_decoder <> [].
Proof. intros Heq. discriminate Heq. Qed.

Lemma forward_step_after_init_state_raises_witness :
  exists e,
    Transformer.forward toy_decoder [1]%Z None "enc" (Some 1%Z)
                        (@init_state toy_torch [5; 6]%Z ∅) 0%nat = Raise e.
Proof.
  apply (forward_step_after_init_state_raises toy_decoder [1]%Z [5; 6]%Z None "enc" 1 ∅
           0%nat toy_layers_nonempty).
Defined.

(** The state after [init_state] and the body of [_init_cache]. *)
Definition toy_ready : gmap string pyval :=
  _init_cache toy_decoder (@init_state toy_torch [5; 6]%Z ∅).

Definition toy_ready_cache : pydict :=
  fresh_entry <$> seq 0 2.

Lemma toy_callable step :
  callable toy_decoder [1]%Z (Some [1; 1]%Z) "dec" step toy_ready 0%nat.
Proof.
  split; [reflexivity|]. intros _. split; [by eexists|]. by exists [5; 6]%Z.
Qed.

Lemma toy_ready_has_layers : has_layers toy_ready_cache 0 2.
Proof.
  intros j Hj. assert (j = 0 \/ j = 1)%nat as [-> | ->] by lia; by eexists.
Qed.

Lemma one_is_not_zero : 1%Z <> 0%Z.
Proof. lia. Qed.

Lemma forward_step_updates_cache_only_witness :
  exists out d' w',
    Transformer.forward toy_decoder [1]%Z (Some [1; 1]%Z) "dec" (Some 1%Z) toy_ready 0%nat
    = Ok (out, <["cache" := PDict d']> toy_ready, w') /\
    keys d' = ["layer_0"; "layer_1"].
Proof.
  destruct (forward_step_updates_cache_only toy_decoder [1]%Z (Some [1; 1]%Z) "dec" 1
              toy_ready toy_ready_cache 0%nat one_is_not_zero (toy_callable _)
              eq_refl toy_ready_has_layers)
    as (out & d' & w' & Hrun & Hkeys & _).
  exists out, d', w'. split; [exact Hrun | exact Hkeys].
Defined.

Lemma forward_step_layer_caches_separate_witness :
  exists out d' w',
    Transformer.forward toy_decoder [1]%Z (Some [1; 1]%Z) "dec" (Some 1%Z) toy_ready 0%nat
    = Ok (out, <["cache" := PDict d']> toy_ready, w') /\
    is_Some (dict_get d' "layer_1").
Proof.
  destruct (forward_step_layer_caches_separate toy_decoder [1]%Z (Some [1; 1]%Z) "dec" 1
              toy_ready toy_ready_cache 0%nat one_is_not_zero (toy_callable _)
              eq_refl toy_ready_has_layers)
    as (out & d' & w' & smb & spm & Hrun & Hsep).
  exists out, d', w'. split; [exact Hrun|].
  destruct (Hsep 1%nat toy_layer eq_refl) as (? & ? & ? & ? & ? & lc' & _ & Hlc' & _).
  by exists lc'.
Defined.

Lemma forward_step_after_init_cache_witness :
  exists out st' w',
    Transformer.forward toy_decoder [1]%Z (Some [1; 1]%Z) "dec" (Some 1%Z) toy_ready 0%nat
    = Ok (out, st', w') /\
    st' !! "src" = Some (toy_tensor [5; 6]%Z).
Proof.
  destruct (forward_step_after_init_cache toy_decoder [1]%Z (Some [1; 1]%Z) "dec" 1
              (@init_state toy_torch [5; 6]%Z ∅) 0%nat one_is_not_zero)
    as (out & st' & w' & Hrun & Hframe).
  { split; [reflexivity|]. intros _. split; [by eexists|]. by exists [5; 6]%Z. }
  exists out, st', w'. split; [exact Hrun|].
  rewrite Hframe by done. reflexivity.
Defined.

Example forward_second_step :
  Transformer.forward toy_decoder [1]%Z (Some [1; 1]%Z) "dec" (Some 1%Z) toy_ready 0%nat
  = Ok ([1570]%Z,
        <["cache" := PDict [("layer_0",
                             PDict [("memory_keys", toy_tensor [1; 1]%Z);
                                    ("memory_values", PNone);
                                    ("self_keys", toy_tensor [1]%Z);
                                    ("self_values", PNone)]);
                            ("layer_1",
                             PDict [("memory_keys", toy_tensor [1; 1]%Z);
                                    ("memory_values", PNone);
                                    ("self_keys", toy_tensor [13]%Z);
                                    ("self_values", PNone)])]]> toy_ready,
        8%nat).
Proof. reflexivity. Qed.

(** *** map_state *)

Lemma map_state_fresh_cache_witness :
  map_state toy_fn toy_ready = Ok (<["src" := toy_tensor [1; 5; 6]%Z]> toy_ready).
Proof.
  apply (map_state_fresh_cache toy_decoder toy_fn (@init_state toy_torch [5; 6]%Z ∅)
           (toy_tensor [5; 6]%Z)).
  reflexivity.
Defined.

Lemma toy_state_cache_is_value :
  is_value (PDict [("layer_0", PDict [("memory_keys", PNone);
                                      ("self_keys", toy_tensor [7; 8]%Z)])]).
Proof.
  repeat first
    [ apply is_value_None
    | apply is_value_Tensor
    | apply is_value_Dict; [apply (bool_decide_unpack _); vm_compute; exact I|]
    | apply Forall_cons_2; simpl
    | apply Forall_nil_2 ].
Qed.

Lemma map_state_identity_witness :
  map_state (fun v _ => v) toy_state = Ok toy_state.
Proof.
  apply (map_state_identity (fun v _ => v) toy_state (toy_tensor [5; 6]%Z) _
           (fun _ _ => eq_refl) eq_refl eq_refl toy_state_cache_is_value).
  intros t Heq. discriminate Heq.
Defined.

Lemma map_state_compose_witness :
  map_state toy_fn toy_state ≫= map_state toy_fn
  = map_state (fun v d => toy_fn (toy_fn v d) d) toy_state.
Proof.
  apply (map_state_compose toy_fn toy_fn toy_state (toy_tensor [5; 6]%Z) _
           eq_refl eq_refl toy_state_cache_is_value).
  - intros t Heq. discriminate Heq.
  - intros t d. by eexists.
Defined.

(** *** The model *)

Lemma toy_embeds_3d : embeds_3d toy_decoder.
Proof. intros x step w. reflexivity. Qed.

Lemma forward_on_transformers_returns_witness :
  exists dec_out_p dec_out_b w',
    Model.forward (transformer_model toy_decoder toy_decoder) [1; 2; 3]%Z [4; 5; 6]%Z
                  false ∅ ∅ 0%nat
    = Ok (dec_out_p, dec_out_b, @init_state toy_torch [4; 5; 6]%Z ∅,
          @init_state toy_torch [1; 2; 3]%Z ∅, w').
Proof.
  apply (forward_on_transformers_returns toy_decoder toy_decoder [1; 2; 3]%Z [4; 5; 6]%Z
           ∅ ∅ 0%nat toy_embeds_3d toy_embeds_3d).
Defined.

Lemma forward_bptt_without_state_raises_witness :
  Model.forward (transformer_model toy_decoder toy_decoder) [1; 2; 3]%Z [4; 5; 6]%Z
                true ∅ ∅ 0%nat
  = Raise (KeyError "src").
Proof.
  apply (forward_bptt_without_state_raises toy_decoder toy_decoder [1; 2; 3]%Z
           [4; 5; 6]%Z ∅ ∅ 0%nat toy_embeds_3d).
  reflexivity.
Defined.

Lemma empty_agrees_off_src (v : pyval) : agree_off_src ∅ (<["src" := v]> ∅).
Proof. intros k Hk. by rewrite lookup_insert_ne. Qed.

Lemma forward_ignores_stored_src_witness :
  Model.forward (transformer_model toy_decoder toy_decoder) [1; 2; 3]%Z [4; 5; 6]%Z
                false ∅ ∅ 0%nat
  = Model.forward (transformer_model toy_decoder toy_decoder) [1; 2; 3]%Z [4; 5; 6]%Z
                  false (<["src" := PNone]> ∅) (<["src" := toy_tensor [9]%Z]> ∅) 0%nat.
Proof.
  apply (forward_ignores_stored_src toy_decoder toy_decoder [1; 2; 3]%Z [4; 5; 6]%Z
           ∅ (<["src" := PNone]> ∅) ∅ (<["src" := toy_tensor [9]%Z]> ∅) 0%nat
           (empty_agrees_off_src _) (empty_agrees_off_src _)).
Defined.

End ExtraExamples.
